(** * A shallow embedding of the GIS toolkit's layout engine and renderers

    The Python sources are [src/config.py] (the region table
    [FigConfig.AREA_RANGE]), [src/core.py] ([GeoPlot.base], [GeoData]),
    [src/graph.py] (the renderers of [Graph]) and [app.py] (the request
    handler and its memory management).

    Floating-point coordinates are modelled as exact rationals [Q]; the
    decimal constants of the source are written as decimal [Q] literals. *)

From Stdlib Require Import Arith NArith QArith String List Permutation Lia Bool.
Import ListNotations.
Open Scope string_scope.

(* ------------------------------------------------------------------ *)
(** ** Configuration: [FigConfig.AREA_RANGE] (src/config.py) *)

Module Config.

Record Bounds := mkBounds {
  min_x : Q; max_x : Q; min_y : Q; max_y : Q
}.

Record Area := mkArea {
  area_name : string;
  area_level : nat;
  center : Q * Q;
  bounds : Bounds
}.

(** The Python dict literal, in its insertion (= iteration) order. *)
Definition AREA_RANGE : list (string * Area) := [
  ("taiwan", mkArea "台灣本島" 0 (120.96, 23.7)
               (mkBounds 118.9 122.6 21.75 25.35));
  ("penghu", mkArea "澎湖縣" 1 (119.57, 23.57)
               (mkBounds 119.3 119.74 23.16 23.86));
  ("kinmen", mkArea "金門縣" 1 (118.3, 24.4)
               (mkBounds 118.1 118.6 24.34 24.56));
  ("kinmen-wuqiu", mkArea "金門縣烏坵鄉" 2 (119.5, 24.8)
               (mkBounds 119.42 119.5 24.96 25.02));
  ("lienchiang", mkArea "連江縣" 1 (119.90, 26.20)
               (mkBounds 119.86 120.1 26.12 26.30));
  ("lienchiang-dongyin", mkArea "連江縣東引鄉" 2 (120.5, 26.3)
               (mkBounds 120.45 120.52 26.34 26.4));
  ("lienchiang-juguang", mkArea "連江縣莒光鄉" 2 (119.9, 25.9)
               (mkBounds 119.91 120 25.93 26))
]%Q.

(** [d[k]] on a string-keyed dict; [None] is Python's [KeyError]. *)
Fixpoint dict_get {A : Type} (k : string) (d : list (string * A)) : option A :=
  match d with
  | [] => None
  | (k', v) :: d' => if String.eqb k k' then Some v else dict_get k d'
  end.

(** [GeoPlot.__init__]: [self.area_list = [area for area in enumerate(AREA_RANGE)]]. *)
Definition area_list : list (nat * string) :=
  combine (seq 0 (length AREA_RANGE)) (map fst AREA_RANGE).

End Config.

Import Config.

(* ------------------------------------------------------------------ *)
(** ** Layout engine: [GeoPlot.base] (src/core.py) *)

Module Layout.

Open Scope Q_scope.

(** A rectangle in the parent axes' fraction coordinates, as passed to
    [inset_axes(bounds)]: [(x, y, w, h)]. *)
Record Rect := mkRect { rx : Q; ry : Q; rw : Q; rh : Q }.

(** The state of one matplotlib axes that the code sets. *)
Record Axes := mkAxes {
  ax_label : option string;
  ax_rect : Rect;
  axis_on : bool;          (* [set_axis_off] clears it *)
  frame_on : bool;         (* [set_frame_on] *)
  xlim : Q * Q;
  ylim : Q * Q
}.

(** A frame is drawn only when the axis is on and the frame is on. *)
Definition frame_visible (a : Axes) : bool := axis_on a && frame_on a.

(** The figure's main axes and its [child_axes], in creation order. *)
Record Canvas := mkCanvas { top : Axes; child_axes : list Axes }.

Definition canvas_panels (cv : Canvas) : list Axes := top cv :: child_axes cv.

Definition opt_bind {A B} (m : option A) (f : A -> option B) : option B :=
  match m with Some a => f a | None => None end.

Local Notation "x <- m ;; k" := (opt_bind m (fun x => k))
  (at level 61, m at next level, right associativity).

(** [GeoPlot._inset]: [ax.inset_axes(bounds, label=label)] appends a child
    axes; its limits are copied from [AREA_RANGE[label]["bounds"]]. *)
Definition _inset (cv : Canvas) (b : Rect) (label : string) (frame_on : bool)
  : option Canvas :=
  area_info <- dict_get label AREA_RANGE ;;
  let bd := bounds area_info in
  let ax_in := mkAxes (Some label) b true frame_on
                 (min_x bd, max_x bd) (min_y bd, max_y bd) in
  Some (mkCanvas (top cv) (child_axes cv ++ [ax_in])).

(** [GeoPlot._cal_insert_ax_height]. *)
Definition aspect (bd : Bounds) : Q :=
  (max_y bd - min_y bd) / (max_x bd - min_x bd).

Definition _cal_insert_ax_height (bd : Bounds) (width : Q) : Q :=
  let aspect := (max_y bd - min_y bd) / (max_x bd - min_x bd) in
  let height := width * aspect in
  height.

(** [GeoPlot.base]. The main axes fills the subplot; [set_axis_off] hides
    it; its limits are [118.93..122.7] by [21.5..25.5]. *)
Definition base : option Canvas :=
  let ax := mkAxes None (mkRect 0 0 1 1) false true (118.93, 122.7) (21.5, 25.5) in
  let area_range := AREA_RANGE in
  let cv := mkCanvas ax [] in
  (* taiwan *)
  cv <- _inset cv (mkRect 0 0 1 1) "taiwan" false ;;
  let x0 := 0.02 in let x1 := 0.19 in
  let w0 := 0.21 in let w1 := 0.06 in
  let y := 0.35 in
  (* penghu *)
  a <- dict_get "penghu" area_range ;;
  let h := _cal_insert_ax_height (bounds a) w0 in
  cv <- _inset cv (mkRect x0 y w0 h) "penghu" true ;;
  (* kinmen *)
  let y := y + h + 0.01 in
  a <- dict_get "kinmen" area_range ;;
  let h := _cal_insert_ax_height (bounds a) w0 in
  cv <- _inset cv (mkRect x0 y w0 h) "kinmen" true ;;
  (* kinmen-wuqiu *)
  a <- dict_get "kinmen-wuqiu" area_range ;;
  let _h := _cal_insert_ax_height (bounds a) w1 in
  cv <- _inset cv (mkRect x1 (y + _h - 0.02) w1 _h) "kinmen-wuqiu" true ;;
  (* lienchiang *)
  let y := y + h + 0.01 in
  a <- dict_get "lienchiang" area_range ;;
  let h := _cal_insert_ax_height (bounds a) w0 in
  cv <- _inset cv (mkRect x0 y w0 h) "lienchiang" true ;;
  (* lienchiang-dongyin *)
  a <- dict_get "lienchiang-dongyin" area_range ;;
  let _h := _cal_insert_ax_height (bounds a) w1 in
  cv <- _inset cv (mkRect x1 (y + _h - 0.03) w1 _h) "lienchiang-dongyin" true ;;
  (* lienchiang-juguang *)
  a <- dict_get "lienchiang-juguang" area_range ;;
  let _h := _cal_insert_ax_height (bounds a) w1 in
  cv <- _inset cv (mkRect x1 (y + _h + 0.05) w1 _h) "lienchiang-juguang" true ;;
  Some cv.

Definition label_is (k : string) (a : Axes) : bool :=
  match ax_label a with Some l => String.eqb l k | None => false end.

(** The panel of a region, looked up by its label. *)
Definition find_panel (k : string) (ps : list Axes) : option Axes :=
  find (label_is k) ps.

End Layout.

(* ------------------------------------------------------------------ *)
(** ** Data of the renderers: features, attribute rows, draw commands *)

Module Data.

Open Scope Q_scope.

(** A row of a shapefile read by [gpd.read_file]: the attribute columns the
    code reads, and an opaque geometry.  The county shapefile's rows carry a
    [TOWNNAME] too; no code path reads it for them. *)
Record Feature := mkFeature {
  COUNTYNAME : string;
  TOWNNAME : string;
  geometry : nat
}.

(** [gdf[name]] on a feature row; [None] is a missing column. *)
Definition feature_get (f : Feature) (name : string) : option string :=
  if String.eqb name "COUNTYNAME" then Some (COUNTYNAME f)
  else if String.eqb name "TOWNNAME" then Some (TOWNNAME f)
  else None.

(** A value of a JSON dict of the request's [data] list: a string, a
    number, or [null] (JSON booleans and nested values are not modelled). *)
Inductive Val := VStr (s : string) | VNum (q : Q) | VNull.

(** One dict of the request's [data] list; a key a dict lacks is [NaN]
    in the DataFrame. *)
Definition Row := list (string * Val).

Definition row_get (r : Row) (c : string) : option Val := dict_get c r.

(** The cell of [pd.DataFrame(data.data)] in column [c]: a missing key
    ([NaN]) and [null] ([None]) are both missing values to pandas. *)
Definition cell (r : Row) (c : string) : Val :=
  match row_get r c with Some v => v | None => VNull end.

Definition is_str (v : Val) : bool := match v with VStr _ => true | _ => false end.
Definition is_num (v : Val) : bool := match v with VNum _ => true | _ => false end.

(** The DataFrame's columns are the union of the dicts' keys. *)
Definition has_column (data : list Row) (c : string) : bool :=
  existsb (fun r => existsb (fun kv => String.eqb (fst kv) c) r) data.

(** pandas' dtype of the column [c]: numeric ([int64] or [float64]) when
    it holds at least one number and no string, [object] otherwise
    (a string somewhere, or only missing values). *)
Definition numeric_column (data : list Row) (c : string) : bool :=
  existsb (fun r => is_num (cell r c)) data && negb (existsb (fun r => is_str (cell r c)) data).

Inductive ScatterSize := SScalar (q : Q) | SArray (qs : list Q).
Inductive ScatterColor := CSingle (c : string) | CList (cs : list string).

(** What the code draws, one command per matplotlib/geopandas call;
    commands on a child panel carry its index in [ax.child_axes]. *)
Inductive Cmd :=
  | BoundaryPlot (panel : nat) (gdf : list Feature) (color : string) (linewidth : Q)
  | FillColors (panel : nat) (gdf : list Feature) (colors : list string)
  | FillColumn (panel : nat) (gdf : list (Feature * Row)) (column cmap : string)
  | Hist2d (panel : nat) (x y : list Q) (bins : nat) (cmap : string) (alpha : Q)
      (range : (Q * Q) * (Q * Q)) (cmin : nat)
  | Scatter (panel : nat) (x y : list Q) (s : ScatterSize) (c : ScatterColor)
      (alpha : Q) (edge : bool)
  | Colorbar (vmin vmax : option Q) (cmap fmt : string) (tick_visible : bool)
  | Legend (handles : list (string * string)).

Inductive Exn :=
  | KeyError (k : string)
  | IndexError
  | OSError               (* a shapefile or JSON file cannot be read *)
  | ValueError (msg : string)
  | TypeError
  | RenderError           (* any other failure inside a drawing call *)
  | HTTPException (status : nat).

End Data.

Import Data.

(* ------------------------------------------------------------------ *)
(** ** The process state and the state-and-exception monad *)

Module Eff.

(** [live] are the open pyplot figures (matplotlib's figure manager);
    [counter] is [app.request_counter]; [log] records every draw command
    with the figure it was drawn on. *)
Record World := mkWorld {
  live : list nat;
  next_fig : nat;
  counter : nat;
  log : list (nat * Cmd)
}.

Inductive res (A : Type) := Ok (a : A) | Err (e : Exn).
Arguments Ok {A} a.
Arguments Err {A} e.

Definition M (A : Type) := World -> World * res A.

Definition ret {A} (a : A) : M A := fun w => (w, Ok a).
Definition raise {A} (e : Exn) : M A := fun w => (w, Err e).
Definition bind {A B} (m : M A) (k : A -> M B) : M B :=
  fun w => match m w with
           | (w', Ok a) => k a w'
           | (w', Err e) => (w', Err e)
           end.

Notation "x <- m ;; k" := (bind m (fun x => k))
  (at level 61, m at next level, right associativity).
Notation "' p <- m ;; k" := (bind m (fun x => match x with p => k end))
  (at level 61, p pattern, m at next level, right associativity).
Notation "m ;;; k" := (bind m (fun _ => k)) (at level 61, right associativity).

Definition of_option {A} (e : Exn) (o : option A) : M A :=
  match o with Some a => ret a | None => raise e end.

(** [try: m finally: fin] *)
Definition try_finally {A} (m : M A) (fin : M unit) : M A :=
  fun w => match m w with
           | (w1, r) => match fin w1 with
                        | (w2, Ok _) => (w2, r)
                        | (w2, Err e) => (w2, Err e)
                        end
           end.

(** [try: m except Exception as e: h(e)] *)
Definition try_except {A} (m : M A) (h : Exn -> M A) : M A :=
  fun w => match m w with
           | (w1, Ok a) => (w1, Ok a)
           | (w1, Err e) => h e w1
           end.

Fixpoint for_each {A} (l : list A) (f : A -> M unit) : M unit :=
  match l with
  | [] => ret tt
  | x :: l' => f x ;;; for_each l' f
  end.

(** [plt.subplots()]: a new figure, registered with pyplot. *)
Definition subplots : M nat :=
  fun w => let f := next_fig w in
           (mkWorld (f :: live w) (S f) (counter w) (log w), Ok f).

(** [plt.close(fig)] *)
Definition close (f : nat) : M unit :=
  fun w => (mkWorld (filter (fun g => negb (Nat.eqb g f)) (live w))
                    (next_fig w) (counter w) (log w), Ok tt).

(** [plt.close("all")] *)
Definition close_all : M unit :=
  fun w => (mkWorld [] (next_fig w) (counter w) (log w), Ok tt).

Definition get_counter : M nat := fun w => (w, Ok (counter w)).
Definition set_counter (n : nat) : M unit :=
  fun w => (mkWorld (live w) (next_fig w) n (log w), Ok tt).

End Eff.

Import Eff.

(* ------------------------------------------------------------------ *)
(** ** Renderers: [Graph] (src/graph.py) *)

Module Graph.

Open Scope Q_scope.

(** The collaborators outside the code: [gpd.read_file] on the county and
    town shapefiles restricted to a bbox [(min_x, min_y, max_x, max_y)]
    ([None]: the file cannot be read), the JSON classification file of the
    subsidy map, failures of individual drawing calls, and of [savefig];
    and Python's [float(s)] on a string, [None] when it raises [ValueError]
    (the strings that spell [nan] or [inf] are outside this model). *)
Record Env := mkEnv {
  read_county : Q * Q * Q * Q -> option (list Feature);
  read_town : Q * Q * Q * Q -> option (list Feature);
  read_town_type : option (list (string * string));
  draw_fails : Cmd -> bool;
  savefig_fails : nat -> bool;
  py_float : string -> option Q
}.

Module Choropleth.
Record ChoroplethParams := mkChoroplethParams {
  data : list Row;
  column : string;
  level : option string;      (* [Optional[str]] in the request schema *)
  cmap : string;
  colorbar_format : string;
  colorbar_tick_visible : bool
}.
End Choropleth.

Module Hist2D.
Record Hist2DParams := mkHist2DParams {
  x : list Q; y : list Q; bins : nat; cmap : string; alpha : Q; cmin : nat
}.
End Hist2D.

Module Dot.
Record DotParams := mkDotParams {
  x : list Q; y : list Q; size : Q; color : string; alpha : Q
}.
End Dot.

Module Bubble.
Record BubbleParams := mkBubbleParams {
  x : list Q; y : list Q; size : list Q; color : list string; alpha : Q; cmin : nat
}.
(** The dataclass constructor with [__post_init__]'s defaults. *)
Definition make (x y : list Q) (size : option (list Q)) (color : option (list string))
    (alpha : Q) (cmin : nat) : BubbleParams :=
  mkBubbleParams x y
    (match size with Some s => s | None => repeat 1 (length x) end)
    (match color with Some c => c | None => repeat "red" (length x) end)
    alpha cmin.
End Bubble.

Abbreviation ChoroplethParams := Choropleth.ChoroplethParams.
Abbreviation Hist2DParams := Hist2D.Hist2DParams.
Abbreviation DotParams := Dot.DotParams.
Abbreviation BubbleParams := Bubble.BubbleParams.

(** [plot_boundary_with_subsidy]'s fixed category-to-color table. *)
Definition colormap : list (string * string) := [
  ("山地原民區", "#477160");
  ("平地原民區", "#A8D8B9");
  ("偏遠地區", "#FFC145");
  ("離島地區", "#90C2E7")
].

(** [colormap.get(town_type.get(row["COUNTYNAME"] + row["TOWNNAME"]), "#ffffff00")] *)
Definition town_color (town_type : list (string * string)) (f : Feature) : string :=
  match dict_get (COUNTYNAME f ++ TOWNNAME f) town_type with
  | Some t => match dict_get t colormap with Some c => c | None => "#ffffff00" end
  | None => "#ffffff00"
  end.

Definition subsidy_legend : list (string * string) := [
  ("#477160", "山地原民區");
  ("#7FB685", "平地原民區");
  ("#FFC145", "偏遠地區");
  ("#90C2E7", "離島地區")
].

(** The right-hand key columns and the left-hand key columns of the
    choropleth join. *)
Definition is_town (p : ChoroplethParams) : bool :=
  match Choropleth.level p with Some l => String.eqb l "town" | None => false end.

Definition valid_feature_column (n : string) : bool :=
  match feature_get (mkFeature "" "" 0) n with Some _ => true | None => false end.

Fixpoint keys_match (f : Feature) (r : Row) (left_on right_on : list string) : bool :=
  match left_on, right_on with
  | l :: ls, rk :: rs =>
      match feature_get f l, row_get r rk with
      | Some s, Some (VStr s') => String.eqb s s' && keys_match f r ls rs
      | _, _ => false
      end
  | _, _ => true
  end.

(** [GeoData.merge_gdf_and_df]: [gdf.merge(df, left_on=..., right_on=...)],
    an inner join that keeps the order of the left frame. *)
Definition merge_join (gdf : list Feature) (df : list Row) (left_on right_on : list string)
  : list (Feature * Row) :=
  flat_map (fun f => map (fun r => (f, r))
                         (filter (fun r => keys_match f r left_on right_on) df)) gdf.

(** The checks of [merge] before the join: a key column missing on either
    side is a [KeyError]; then, unless the left frame is empty, a numeric
    right key column against the left frame's string ([object]) key column
    is a [ValueError] (pandas' message also names the two dtypes and the
    key, and advises [pd.concat]). *)
Definition merge_res (gdf : list Feature) (df : list Row) (left_on right_on : list string)
  : res (list (Feature * Row)) :=
  match find (fun n => negb (valid_feature_column n)) left_on with
  | Some n => Err (KeyError n)
  | None =>
      match find (fun n => negb (has_column df n)) right_on with
      | Some n => Err (KeyError n)
      | None =>
          match gdf, find (numeric_column df) right_on with
          | _ :: _, Some _ =>
              Err (ValueError "You are trying to merge on object and numeric columns")
          | _, _ => Ok (merge_join gdf df left_on right_on)
          end
      end
  end.

Definition lift_res {A} (r : res A) : M A :=
  match r with Ok a => ret a | Err e => raise e end.

Definition merge_gdf_and_df (gdf : list Feature) (df : list Row)
    (left_on right_on : list string) : M (list (Feature * Row)) :=
  lift_res (merge_res gdf df left_on right_on).

(** The [left_on] and [right_on] keys [plot_choropleth] passes. *)
Definition choropleth_left_on (p : ChoroplethParams) : list string :=
  if is_town p then ["COUNTYNAME"; "TOWNNAME"] else ["COUNTYNAME"].
Definition choropleth_right_on (p : ChoroplethParams) : list string :=
  if is_town p then ["county"; "town"] else ["county"].

Definition qmin (a b : Q) : Q := if Qle_bool a b then a else b.
Definition qmax (a b : Q) : Q := if Qle_bool a b then b else a.

(** The least and the greatest number of a list; [None] for no number. *)
Definition list_min (l : list Q) : option Q :=
  match l with [] => None | q :: l' => Some (fold_left qmin l' q) end.
Definition list_max (l : list Q) : option Q :=
  match l with [] => None | q :: l' => Some (fold_left qmax l' q) end.

(** Python's order on [str] compares code points; on the UTF-8 encoding
    of the strings it is the lexicographic byte order [String.leb]. *)
Definition str_min (a b : string) : string := if String.leb a b then a else b.
Definition str_max (a b : string) : string := if String.leb a b then b else a.

Definition slist_min (l : list string) : option string :=
  match l with [] => None | s :: l' => Some (fold_left str_min l' s) end.
Definition slist_max (l : list string) : option string :=
  match l with [] => None | s :: l' => Some (fold_left str_max l' s) end.

Definition num_cells (cs : list Val) : list Q :=
  flat_map (fun v => match v with VNum q => [q] | _ => [] end) cs.
Definition str_cells (cs : list Val) : list string :=
  flat_map (fun v => match v with VStr s => [s] | _ => [] end) cs.

(** [df[c].min()] and [df[c].max()] ([skipna=True]); [None] is [NaN].
    A missing column is a [KeyError].  A column without strings is
    numeric (or holds only missing values): its missing values are
    skipped.  On a column with a string ([object] dtype) pandas fills the
    missing values with [+inf] (for [max] [-inf]) before numpy reduces the
    cells with Python's comparison, so a number or a missing value next to
    a string is a [TypeError]; a column of strings only gives the least
    (greatest) string. *)
Definition series_extreme (qpick : list Q -> option Q) (spick : list string -> option string)
    (df : list Row) (c : string) : res (option Val) :=
  if negb (has_column df c) then Err (KeyError c)
  else
    let cs := map (fun r => cell r c) df in
    if existsb is_str cs then
      if forallb is_str cs then Ok (option_map VStr (spick (str_cells cs)))
      else Err TypeError
    else Ok (option_map VNum (qpick (num_cells cs))).

Definition series_min_res (df : list Row) (c : string) : res (option Val) :=
  series_extreme list_min slist_min df c.
Definition series_max_res (df : list Row) (c : string) : res (option Val) :=
  series_extreme list_max slist_max df c.

Definition series_min (df : list Row) (c : string) : M (option Val) :=
  lift_res (series_min_res df c).
Definition series_max (df : list Row) (c : string) : M (option Val) :=
  lift_res (series_max_res df c).

(** [str(n)] of a natural number. *)
Fixpoint digits_of (fuel n : nat) (acc : string) : string :=
  match fuel with
  | O => acc
  | S fuel' =>
      let acc' := String (Ascii.ascii_of_nat (48 + n mod 10)%nat) acc in
      if Nat.ltb n 10 then acc' else digits_of fuel' (n / 10)%nat acc'
  end.
Definition str_of_nat (n : nat) : string := digits_of (S n) n "".

(** matplotlib's argument checks of [Axes.scatter], in its order: [x] and
    [y] of one size; [s] a scalar or an array of size 1 or [x.size]; [c]
    one colour, or a list of 0, 1 or [x.size] colours. *)
Definition scatter_error (x y : list Q) (s : ScatterSize) (c : ScatterColor) : option Exn :=
  if negb (Nat.eqb (length x) (length y))
  then Some (ValueError "x and y must be the same size")
  else if match s with
          | SScalar _ => false
          | SArray qs => negb (Nat.eqb (length qs) 1 || Nat.eqb (length qs) (length x))
          end
  then Some (ValueError "s must be a scalar, or float array-like with the same size as x and y")
  else match c with
       | CSingle _ => None
       | CList cs =>
           if Nat.leb (length cs) 1 || Nat.eqb (length cs) (length x) then None
           else Some (ValueError ("'c' argument has " ++ str_of_nat (length cs) ++
                  " elements, which is inconsistent with 'x' and 'y' with size " ++
                  str_of_nat (length x) ++ "."))
       end.

Section Renderers.

Variable env : Env.

(** A drawing call on figure [fig]. *)
Definition draw (fig : nat) (c : Cmd) : M unit :=
  fun w => if draw_fails env c then (w, Err RenderError)
           else (mkWorld (live w) (next_fig w) (counter w) (log w ++ [(fig, c)]), Ok tt).

(** [ax.child_axes[i]]: an [IndexError] past the end. *)
Definition child (cv : Layout.Canvas) (i : nat) : M Layout.Axes :=
  of_option IndexError (nth_error (Layout.child_axes cv) i).

Definition draw_on (cv : Layout.Canvas) (fig : nat) (i : nat) (c : Cmd) : M unit :=
  _ <- child cv i ;; draw fig c.

(** [GeoPlot.base] with the figure it allocates. *)
Definition gp_base : M (nat * Layout.Canvas) :=
  fig <- subplots ;;
  cv <- of_option (KeyError "AREA_RANGE") Layout.base ;;
  ret (fig, cv).

Definition get_area (a : string) : M Area := of_option (KeyError a) (dict_get a AREA_RANGE).

Definition bbox_of (a : string) : M (Q * Q * Q * Q) :=
  ar <- get_area a ;;
  let b := bounds ar in
  ret (min_x b, min_y b, max_x b, max_y b).

Definition get_county_gpd (bbox : Q * Q * Q * Q) : M (list Feature) :=
  of_option OSError (read_county env bbox).
Definition get_town_gpd (bbox : Q * Q * Q * Q) : M (list Feature) :=
  of_option OSError (read_town env bbox).

(** [Graph.plot_boundary] *)
Definition boundary_panel (cv : Layout.Canvas) (fig : nat) (ia : nat * string) : M unit :=
  let '(i, a) := ia in
  bbox <- bbox_of a ;;
  gdf <- get_county_gpd bbox ;;
  draw_on cv fig i (BoundaryPlot i gdf "black" 0.8).

Definition plot_boundary : M (nat * Layout.Canvas) :=
  '(fig, cv) <- gp_base ;;
  for_each area_list (boundary_panel cv fig) ;;;
  ret (fig, cv).

(** [Graph.plot_boundary_with_subsidy] *)
Definition subsidy_panel (town_type : list (string * string)) (cv : Layout.Canvas)
    (fig : nat) (ia : nat * string) : M unit :=
  let '(i, a) := ia in
  bbox <- bbox_of a ;;
  county_gdf <- get_county_gpd bbox ;;
  town_gdf <- get_town_gpd bbox ;;
  let colors := map (town_color town_type) town_gdf in
  draw_on cv fig i (BoundaryPlot i county_gdf "black" 0.8) ;;;
  draw_on cv fig i (BoundaryPlot i town_gdf "gray" 0.5) ;;;
  draw_on cv fig i (FillColors i town_gdf colors).

Definition plot_boundary_with_subsidy : M (nat * Layout.Canvas) :=
  town_type <- of_option OSError (read_town_type env) ;;
  '(fig, cv) <- gp_base ;;
  for_each area_list (subsidy_panel town_type cv fig) ;;;
  draw fig (Legend subsidy_legend) ;;;
  ret (fig, cv).

(** [Graph.plot_choropleth]: the body of its loop over the panels. *)
Definition choropleth_panel (params : ChoroplethParams) (cv : Layout.Canvas)
    (fig : nat) (ia : nat * string) : M unit :=
  let '(i, a) := ia in
  bbox <- bbox_of a ;;
  gdf <- (if is_town params then get_town_gpd bbox else get_county_gpd bbox) ;;
  gdf <- merge_gdf_and_df gdf (Choropleth.data params)
           (choropleth_left_on params) (choropleth_right_on params) ;;
  match gdf with
  | [] =>
      county_edge <- get_county_gpd bbox ;;
      draw_on cv fig i (BoundaryPlot i county_edge "black" 0.8)
  | _ =>
      (if has_column (Choropleth.data params) (Choropleth.column params)
       then draw_on cv fig i (FillColumn i gdf (Choropleth.column params) (Choropleth.cmap params))
       else raise (KeyError (Choropleth.column params))) ;;;
      county_edge <- get_county_gpd bbox ;;
      draw_on cv fig i (BoundaryPlot i county_edge "black" 0.8)
  end.

(** [Normalize]'s [_sanitize_extrema]: [ex.item()] on a numpy number
    ([NaN] stays [NaN]), [float(ex)] on a string. *)
Definition _sanitize_extrema (ex : option Val) : res (option Q) :=
  match ex with
  | Some (VNum q) => Ok (Some q)
  | Some (VStr s) =>
      match py_float env s with
      | Some q => Ok (Some q)
      | None => Err (ValueError ("could not convert string to float: '" ++ s ++ "'"))
      end
  | _ => Ok None
  end.

(** [Graph._colorbar]: [plt.Normalize(vmin=vmin, vmax=vmax)], then one
    colorbar on the main axes. *)
Definition _colorbar (fig : nat) (vmin vmax : option Val) (cmap colorbar_format : string)
    (colorbar_tick_visible : bool) : M unit :=
  lo <- lift_res (_sanitize_extrema vmin) ;;
  hi <- lift_res (_sanitize_extrema vmax) ;;
  draw fig (Colorbar lo hi cmap colorbar_format colorbar_tick_visible).

Definition plot_choropleth (params : ChoroplethParams) : M (nat * Layout.Canvas) :=
  '(fig, cv) <- gp_base ;;
  for_each area_list (choropleth_panel params cv fig) ;;;
  vmin <- series_min (Choropleth.data params) (Choropleth.column params) ;;
  vmax <- series_max (Choropleth.data params) (Choropleth.column params) ;;
  _colorbar fig vmin vmax (Choropleth.cmap params) (Choropleth.colorbar_format params)
    (Choropleth.colorbar_tick_visible params) ;;;
  ret (fig, cv).

(** [ax.child_axes[i].hist2d(...)]: numpy's [histogram2d] checks the
    lengths of [x] and [y]. *)
Definition hist2d_on (cv : Layout.Canvas) (fig i : nat) (x y : list Q) (bins : nat)
    (cmap : string) (alpha : Q) (range : (Q * Q) * (Q * Q)) (cmin : nat) : M unit :=
  _ <- child cv i ;;
  if Nat.eqb (length x) (length y)
  then draw fig (Hist2d i x y bins cmap alpha range cmin)
  else raise (ValueError "x and y must have the same length.").

(** [Graph.plot_hist2d] *)
Definition hist2d_panel (params : Hist2DParams) (cv : Layout.Canvas) (fig : nat)
    (ia : nat * string) : M unit :=
  let '(i, a) := ia in
  ar <- get_area a ;;
  let b := bounds ar in
  hist2d_on cv fig i (Hist2D.x params) (Hist2D.y params) (Hist2D.bins params)
    (Hist2D.cmap params) (Hist2D.alpha params)
    ((min_x b, max_x b), (min_y b, max_y b)) (Hist2D.cmin params).

Definition plot_hist2d (params : Hist2DParams) : M (nat * Layout.Canvas) :=
  '(fig, cv) <- plot_boundary ;;
  for_each area_list (hist2d_panel params cv fig) ;;;
  ret (fig, cv).

(** [ax.child_axes[i].scatter(...)] *)
Definition scatter_on (cv : Layout.Canvas) (fig i : nat) (x y : list Q)
    (s : ScatterSize) (c : ScatterColor) (alpha : Q) (edge : bool) : M unit :=
  _ <- child cv i ;;
  match scatter_error x y s c with
  | Some e => raise e
  | None => draw fig (Scatter i x y s c alpha edge)
  end.

(** [Graph.plot_dot] *)
Definition dot_panel (params : DotParams) (cv : Layout.Canvas) (fig : nat)
    (ia : nat * string) : M unit :=
  let '(i, _) := ia in
  scatter_on cv fig i (Dot.x params) (Dot.y params) (SScalar (Dot.size params))
    (CSingle (Dot.color params)) (Dot.alpha params) false.

Definition plot_dot (params : DotParams) : M (nat * Layout.Canvas) :=
  '(fig, cv) <- plot_boundary ;;
  for_each area_list (dot_panel params cv fig) ;;;
  ret (fig, cv).

(** [Graph.plot_bubble] *)
Definition bubble_panel (params : BubbleParams) (cv : Layout.Canvas) (fig : nat)
    (ia : nat * string) : M unit :=
  let '(i, _) := ia in
  scatter_on cv fig i (Bubble.x params) (Bubble.y params) (SArray (Bubble.size params))
    (CList (Bubble.color params)) (Bubble.alpha params) true.

Definition plot_bubble (params : BubbleParams) : M (nat * Layout.Canvas) :=
  '(fig, cv) <- plot_boundary ;;
  for_each area_list (bubble_panel params cv fig) ;;;
  ret (fig, cv).

End Renderers.

End Graph.

(* ------------------------------------------------------------------ *)
(** ** The service: request handling and memory management (app.py) *)

Module App.

Import Graph.

Definition CLEANUP_INTERVAL : nat := 50.

Inductive Response := StreamingResponse (img_buf : nat) | CleanupDone.

(** The endpoints that reach [graph_instance]. *)
Inductive Request :=
  | RBoundary
  | RBoundaryWithSubsidy
  | RChoropleth (p : ChoroplethParams)
  | RDot (p : DotParams)
  | RHist2d (p : Hist2DParams)
  | RBubble (p : BubbleParams)
  | RCleanup.

Section Service.

Variable env : Env.

(** [Graph.cleanup_memory]: [plt.close("all")]; [plt.rcdefaults()] and
    [gc.collect()] touch no figure. *)
Definition cleanup_memory : M unit := close_all.

(** [cleanup_memory_if_needed] *)
Definition cleanup_memory_if_needed : M unit :=
  request_counter <- get_counter ;;
  set_counter (S request_counter) ;;;
  if Nat.leb CLEANUP_INTERVAL (S request_counter)
  then cleanup_memory ;;; set_counter 0
  else ret tt.

Definition savefig (fig : nat) : M unit :=
  fun w => if savefig_fails env fig then (w, Err RenderError) else (w, Ok tt).

(** [fig_to_image]: the buffer is named by the figure it was encoded from. *)
Definition fig_to_image (fig : nat) : M nat :=
  try_finally (savefig fig ;;; ret fig) (close fig).

(** [handle_plot_request] *)
Definition handle_plot_request (plot_func : M (nat * Layout.Canvas)) : M Response :=
  try_except
    (cleanup_memory_if_needed ;;;
     '(fig, _) <- plot_func ;;
     img_buf <- fig_to_image fig ;;
     ret (StreamingResponse img_buf))
    (fun e => cleanup_memory ;;; raise (HTTPException 500)).

(** [manual_cleanup] *)
Definition manual_cleanup : M Response :=
  cleanup_memory ;;; set_counter 0 ;;; ret CleanupDone.

Definition serve (r : Request) : M Response :=
  match r with
  | RBoundary => handle_plot_request (plot_boundary env)
  | RBoundaryWithSubsidy => handle_plot_request (plot_boundary_with_subsidy env)
  | RChoropleth p => handle_plot_request (plot_choropleth env p)
  | RDot p => handle_plot_request (plot_dot env p)
  | RHist2d p => handle_plot_request (plot_hist2d env p)
  | RBubble p => handle_plot_request (plot_bubble env p)
  | RCleanup => manual_cleanup
  end.

(** The process state after each of a sequence of requests served one
    after the other. *)
Fixpoint serve_all (rs : list Request) (w : World) : list World :=
  match rs with
  | [] => []
  | r :: rs' => let w' := fst (serve r w) in w' :: serve_all rs' w'
  end.

End Service.

End App.

(* ================================================================== *)
(** * Properties *)

Module LayoutFacts.

Import Layout.
Open Scope Q_scope.

(** C1: [GeoPlot.base] builds one main axes with its frame hidden and one
    child panel per region of [AREA_RANGE], [n + 1] panels in all; the
    children follow the table's order, so [ax.child_axes[i]] is the panel
    of the [i]-th entry of [area_list], with that region's bounds as
    its limits. *)
Theorem base_panels_follow_registry :
  exists cv,
    base = Some cv /\
    (length (canvas_panels cv) = length AREA_RANGE + 1)%nat /\
    frame_visible (top cv) = false /\
    map ax_label (child_axes cv) = map (fun e => Some (fst e)) AREA_RANGE /\
    (forall i a, In (i, a) area_list ->
       exists p ar,
         nth_error (child_axes cv) i = Some p /\ ax_label p = Some a /\
         dict_get a AREA_RANGE = Some ar /\
         xlim p = (min_x (bounds ar), max_x (bounds ar)) /\
         ylim p = (min_y (bounds ar), max_y (bounds ar))).
Proof.
  eexists. split; [vm_compute; reflexivity |].
  split; [vm_compute; reflexivity |].
  split; [vm_compute; reflexivity |].
  split; [vm_compute; reflexivity |].
  intros i a Hin. vm_compute in Hin.
  repeat (destruct Hin as [Hin | Hin]; [injection Hin as <- <-;
    do 2 eexists; repeat split; vm_compute; reflexivity |]).
  contradiction.
Qed.

(** Height over width of a panel's rectangle. *)
Definition panel_ratio (p : Axes) : Q := rh (ax_rect p) / rw (ax_rect p).

(** C2 (counterexample): the main-island panel "taiwan" is not shaped by
    its bbox: its rectangle is the whole main axes, ratio [1], while its
    bbox gives [3.6 / 3.7 = 36/37]. *)
Lemma taiwan_panel_ratio_not_aspect :
  exists cv p ar,
    base = Some cv /\ find_panel "taiwan" (child_axes cv) = Some p /\
    dict_get "taiwan" AREA_RANGE = Some ar /\
    panel_ratio p == 1 /\ aspect (bounds ar) == 36 # 37 /\
    ~ panel_ratio p == aspect (bounds ar).
Proof.
  do 3 eexists. split; [vm_compute; reflexivity |].
  split; [vm_compute; reflexivity |].
  split; [vm_compute; reflexivity |].
  split; [vm_compute; reflexivity |].
  split; [vm_compute; reflexivity |].
  vm_compute. discriminate.
Qed.

(** C2 (amended): every region of level 1 or 2 gets a panel whose
    height/width ratio is its bbox's [(max_y - min_y) / (max_x - min_x)];
    the level-0 region's panel is the full rectangle [(0, 0, 1, 1)] of the
    main axes. *)
Theorem panel_ratio_is_bbox_aspect :
  exists cv,
    base = Some cv /\
    forall k ar, In (k, ar) AREA_RANGE ->
      exists p, find_panel k (child_axes cv) = Some p /\
        (if Nat.eqb (area_level ar) 0
         then ax_rect p = mkRect 0 0 1 1
         else panel_ratio p == aspect (bounds ar)).
Proof.
  eexists. split; [vm_compute; reflexivity |].
  intros k ar Hin. vm_compute in Hin.
  repeat (destruct Hin as [Hin | Hin]; [injection Hin as <- <-;
    eexists; split; [vm_compute; reflexivity | vm_compute; reflexivity] |]).
  contradiction.
Qed.

End LayoutFacts.

Module LifecycleFacts.

Import Graph App.

(** A computation that opens and closes no figure. *)
Definition live_pres {A} (m : M A) : Prop := forall w, live (fst (m w)) = live w.

(** A plotting function: when it returns [(fig, ax)], it has opened
    exactly the one figure [fig]. *)
Definition alloc1 {X} (m : M (nat * X)) : Prop :=
  forall w w' fig c, m w = (w', Ok (fig, c)) -> live w' = fig :: live w.

(** A continuation that returns the figure [fig] it was given and opens
    and closes nothing. *)
Definition pres_ret {X} (fig : nat) (m : M (nat * X)) : Prop :=
  forall w w' p, m w = (w', Ok p) -> fst p = fig /\ live w' = live w.

Lemma ret_pres {A} (a : A) : live_pres (ret a).
Proof. intros w. reflexivity. Qed.

Lemma raise_pres {A} (e : Exn) : live_pres (@raise A e).
Proof. intros w. reflexivity. Qed.

Lemma bind_pres {A B} (m : M A) (k : A -> M B) :
  live_pres m -> (forall a, live_pres (k a)) -> live_pres (bind m k).
Proof.
  intros Hm Hk w. unfold bind. specialize (Hm w).
  destruct (m w) as [w1 [a | e]]; simpl in *.
  - rewrite Hk. exact Hm.
  - exact Hm.
Qed.

Lemma of_option_pres {A} e (o : option A) : live_pres (of_option e o).
Proof. destruct o; intros w; reflexivity. Qed.

Lemma lift_res_pres {A} (r : res A) : live_pres (Graph.lift_res r).
Proof. destruct r; intros w; reflexivity. Qed.

Lemma for_each_pres {A} (l : list A) (f : A -> M unit) :
  (forall x, live_pres (f x)) -> live_pres (for_each l f).
Proof.
  intros Hf. induction l as [| x l IH]; simpl.
  - apply ret_pres.
  - apply bind_pres; [apply Hf | intros _; exact IH].
Qed.

Section WithEnv.

Variable env : Env.

Lemma draw_pres fig c : live_pres (draw env fig c).
Proof. intros w. unfold draw. destruct (draw_fails env c); reflexivity. Qed.

Lemma get_counter_pres : live_pres get_counter.
Proof. intros w. reflexivity. Qed.

Lemma set_counter_pres n : live_pres (set_counter n).
Proof. intros w. reflexivity. Qed.

Create HintDb live.
#[local] Hint Resolve ret_pres raise_pres of_option_pres lift_res_pres draw_pres : live.

Ltac pres :=
  repeat first
    [ match goal with
      | |- live_pres (bind _ _) => apply bind_pres
      | |- live_pres (for_each _ _) => apply for_each_pres
      | |- live_pres (if ?b then _ else _) => destruct b
      | |- live_pres (match ?x with _ => _ end) => destruct x
      end
    | solve [eauto with live]
    | match goal with |- forall _, _ => intros ? end ].

Lemma merge_pres gdf df l r : live_pres (merge_gdf_and_df gdf df l r).
Proof. unfold merge_gdf_and_df. apply lift_res_pres. Qed.

#[local] Hint Resolve merge_pres : live.

Ltac unfold_graph :=
  unfold boundary_panel, subsidy_panel, choropleth_panel, hist2d_panel, dot_panel,
    bubble_panel, hist2d_on, scatter_on, draw_on, child, bbox_of, get_area,
    get_county_gpd, get_town_gpd, series_min, series_max, _colorbar.

Lemma boundary_panel_pres cv fig ia : live_pres (boundary_panel env cv fig ia).
Proof. destruct ia. unfold_graph. pres. Qed.

Lemma subsidy_panel_pres tt cv fig ia : live_pres (subsidy_panel env tt cv fig ia).
Proof. destruct ia. unfold_graph. pres. Qed.

Lemma choropleth_panel_pres p cv fig ia : live_pres (choropleth_panel env p cv fig ia).
Proof. destruct ia. unfold_graph. pres. Qed.

Lemma hist2d_panel_pres p cv fig ia : live_pres (hist2d_panel env p cv fig ia).
Proof. destruct ia. unfold_graph. pres. Qed.

Lemma dot_panel_pres p cv fig ia : live_pres (dot_panel env p cv fig ia).
Proof. destruct ia. unfold_graph. pres. Qed.

Lemma bubble_panel_pres p cv fig ia : live_pres (bubble_panel env p cv fig ia).
Proof. destruct ia. unfold_graph. pres. Qed.

Lemma pres_ret_ret {X} fig (c : X) : pres_ret fig (ret (fig, c)).
Proof. intros w w' p H. injection H as <- <-. split; reflexivity. Qed.

Lemma pres_ret_bind {A X} fig (m : M A) (k : A -> M (nat * X)) :
  live_pres m -> (forall a, pres_ret fig (k a)) -> pres_ret fig (bind m k).
Proof.
  intros Hm Hk w w' p H. unfold bind in H. specialize (Hm w).
  destruct (m w) as [w1 [a | e]]; [| discriminate].
  destruct (Hk a w1 w' p H) as [Hf Hl]. simpl in Hm. split; [exact Hf | congruence].
Qed.

Lemma alloc1_bind {X Y} (m : M (nat * X)) (k : nat -> X -> M (nat * Y)) :
  alloc1 m -> (forall fig c, pres_ret fig (k fig c)) ->
  alloc1 (bind m (fun p => match p with (fig, c) => k fig c end)).
Proof.
  intros Hm Hk w w' fig c H. unfold bind in H.
  destruct (m w) as [w1 [[fig0 c0] | e]] eqn:E; [| discriminate].
  destruct (Hk fig0 c0 w1 w' (fig, c) H) as [Hf Hl]. simpl in Hf. subst fig0.
  rewrite Hl. exact (Hm _ _ _ _ E).
Qed.

Lemma pres_alloc1 {A X} (m : M A) (k : A -> M (nat * X)) :
  live_pres m -> (forall a, alloc1 (k a)) -> alloc1 (bind m k).
Proof.
  intros Hm Hk w w' fig c H. unfold bind in H. specialize (Hm w).
  destruct (m w) as [w1 [a | e]]; [| discriminate].
  simpl in Hm. rewrite <- Hm. exact (Hk a _ _ _ _ H).
Qed.

Lemma gp_base_alloc1 : alloc1 gp_base.
Proof.
  intros w w' fig c H. cbv [gp_base bind subplots of_option ret raise] in H.
  destruct Layout.base; [injection H as <- <- _; reflexivity | discriminate].
Qed.

Ltac tail_pres :=
  repeat first
    [ apply pres_ret_ret
    | apply pres_ret_bind
    | match goal with
      | |- live_pres (bind _ _) => apply bind_pres
      | |- live_pres (for_each _ _) => apply for_each_pres
      end
    | solve [eauto using boundary_panel_pres, subsidy_panel_pres, choropleth_panel_pres,
               hist2d_panel_pres, dot_panel_pres, bubble_panel_pres with live]
    | match goal with |- forall _, _ => intros ? end ].

Lemma plot_boundary_alloc1 : alloc1 (plot_boundary env).
Proof.
  unfold plot_boundary. apply alloc1_bind; [exact gp_base_alloc1 |]. tail_pres.
Qed.

Lemma plot_boundary_with_subsidy_alloc1 : alloc1 (plot_boundary_with_subsidy env).
Proof.
  unfold plot_boundary_with_subsidy. apply pres_alloc1; [apply of_option_pres |].
  intros tt. apply alloc1_bind; [exact gp_base_alloc1 |]. tail_pres.
Qed.

Lemma plot_choropleth_alloc1 p : alloc1 (plot_choropleth env p).
Proof.
  unfold plot_choropleth. apply alloc1_bind; [exact gp_base_alloc1 |].
  unfold series_min, series_max, _colorbar. tail_pres.
Qed.

Lemma plot_hist2d_alloc1 p : alloc1 (plot_hist2d env p).
Proof.
  unfold plot_hist2d. apply alloc1_bind; [exact plot_boundary_alloc1 |]. tail_pres.
Qed.

Lemma plot_dot_alloc1 p : alloc1 (plot_dot env p).
Proof.
  unfold plot_dot. apply alloc1_bind; [exact plot_boundary_alloc1 |]. tail_pres.
Qed.

Lemma plot_bubble_alloc1 p : alloc1 (plot_bubble env p).
Proof.
  unfold plot_bubble. apply alloc1_bind; [exact plot_boundary_alloc1 |]. tail_pres.
Qed.

Lemma cleanup_memory_if_needed_nil w :
  live w = [] -> exists w1, cleanup_memory_if_needed w = (w1, Ok tt) /\ live w1 = [].
Proof.
  intros Hw. unfold cleanup_memory_if_needed, cleanup_memory, bind, get_counter,
    set_counter, close_all, ret.
  destruct (Nat.leb CLEANUP_INTERVAL (S (counter w))); eexists; split; try reflexivity.
  simpl. exact Hw.
Qed.

Lemma handle_plot_request_nil (pf : M (nat * Layout.Canvas)) w :
  alloc1 pf -> live w = [] -> live (fst (handle_plot_request env pf w)) = [].
Proof.
  intros Hpf Hw. destruct (cleanup_memory_if_needed_nil w Hw) as [w1 [Hc Hw1]].
  unfold handle_plot_request, try_except. unfold bind at 1. rewrite Hc.
  unfold bind at 1. destruct (pf w1) as [w2 [[fig cv] | e]] eqn:Hp.
  - pose proof (Hpf _ _ _ _ Hp) as Hw2. rewrite Hw1 in Hw2.
    unfold fig_to_image, try_finally, savefig, bind, close, ret.
    destruct (savefig_fails env fig); simpl; [reflexivity |].
    rewrite Hw2. simpl. rewrite Nat.eqb_refl. reflexivity.
  - reflexivity.
Qed.

Lemma serve_nil r w : live w = [] -> live (fst (serve env r w)) = [].
Proof.
  intros Hw. destruct r; simpl serve;
    try (apply handle_plot_request_nil; [| exact Hw]);
    eauto using plot_boundary_alloc1, plot_boundary_with_subsidy_alloc1,
      plot_choropleth_alloc1, plot_hist2d_alloc1, plot_dot_alloc1, plot_bubble_alloc1.
Qed.

(** C3: every request releases the figure it created on every exit path:
    a plot that is encoded is closed by [fig_to_image]'s [finally], and any
    exception (while reading geometry, drawing or encoding) runs
    [cleanup_memory] ([plt.close("all")]) before the 500 error is raised.
    So, starting with no open figure, after each of any sequence of
    requests served one after the other no figure is open, and so at most
    one is. *)
Theorem serve_all_releases_figures (rs : list Request) (w : World) :
  live w = [] ->
  Forall (fun w' => live w' = [] /\ (length (live w') <= 1)%nat) (serve_all env rs w).
Proof.
  revert w. induction rs as [| r rs IH]; intros w Hw; simpl; constructor.
  - pose proof (serve_nil r w Hw) as H. rewrite H. split; [reflexivity | simpl; lia].
  - apply IH. apply serve_nil. exact Hw.
Qed.

End WithEnv.

(** [float(s)] on the strings of decimal digits, for the concrete
    environments below; every other string is rejected. *)
Fixpoint parse_digits (s : string) (acc : Z) : option Z :=
  match s with
  | EmptyString => Some acc
  | String ch s' =>
      let n := Ascii.nat_of_ascii ch in
      if Nat.leb 48 n && Nat.leb n 57
      then parse_digits s' (acc * 10 + Z.of_nat (n - 48))%Z else None
  end.
Definition digits_float (s : string) : option Q :=
  match s with EmptyString => None | _ => option_map inject_Z (parse_digits s 0%Z) end.

(** An environment where every file reads as empty and nothing fails. *)
Definition quiet_env : Env :=
  mkEnv (fun _ => Some []) (fun _ => Some []) (Some []) (fun _ => false) (fun _ => false)
        digits_float.

Lemma serve_all_releases_figures_witness :
  live (mkWorld [] 0 0 []) = [] /\
  Forall (fun w' => live w' = [] /\ (length (live w') <= 1)%nat)
    (serve_all quiet_env [RBoundary; RDot (Dot.mkDotParams [1] [1] 10 "red" (1 # 2)); RCleanup]
       (mkWorld [] 0 0 [])).
Proof.
  split; [reflexivity |].
  apply (serve_all_releases_figures quiet_env). reflexivity.
Defined.

End LifecycleFacts.

Module ChoroplethFacts.

Import Graph.

Definition append_log (w : World) (cs : list (nat * Cmd)) : World :=
  mkWorld (live w) (next_fig w) (counter w) (log w ++ cs).

Definition bbox_tuple (ar : Area) : Q * Q * Q * Q :=
  (min_x (bounds ar), min_y (bounds ar), max_x (bounds ar), max_y (bounds ar)).

Lemma merge_join_In gdf df l r f row :
  In (f, row) (merge_join gdf df l r) <->
  In f gdf /\ In row df /\ keys_match f row l r = true.
Proof.
  unfold merge_join. rewrite in_flat_map. split.
  - intros [f' [Hf Hin]]. apply in_map_iff in Hin as [row' [Heq Hrow]].
    injection Heq as <- <-. apply filter_In in Hrow as [Hrow Hk]. auto.
  - intros [Hf [Hrow Hk]]. exists f. split; [exact Hf |].
    apply in_map_iff. exists row. split; [reflexivity |]. apply filter_In. auto.
Qed.

Lemma merge_res_ok gdf df l r merged :
  merge_res gdf df l r = Ok merged -> merged = merge_join gdf df l r.
Proof.
  unfold merge_res. destruct (find _ l); [discriminate |].
  destruct (find _ r); [discriminate |].
  destruct gdf; [congruence |]. destruct (find (numeric_column df) r); congruence.
Qed.

Ltac run_panel :=
  unfold choropleth_panel, bbox_of, get_area, get_county_gpd, get_town_gpd,
    merge_gdf_and_df, draw_on, child, draw, of_option, lift_res, bind, ret, raise.

(** C4: when the join of a panel matches no row, [plot_choropleth] draws
    only the county boundary on that panel and the step returns normally:
    the empty join is not an error.  (The panel's geometry reads and the
    boundary drawing itself are assumed to succeed.) *)
Theorem empty_join_boundary_only (env : Env) (p : ChoroplethParams) (cv : Layout.Canvas)
    (fig i : nat) (a : string) (ar : Area) (ax : Layout.Axes)
    (feats edge : list Feature) (w : World) :
  dict_get a AREA_RANGE = Some ar ->
  nth_error (Layout.child_axes cv) i = Some ax ->
  (if is_town p then read_town env (bbox_tuple ar) else read_county env (bbox_tuple ar))
    = Some feats ->
  merge_res feats (Choropleth.data p) (choropleth_left_on p) (choropleth_right_on p) = Ok [] ->
  read_county env (bbox_tuple ar) = Some edge ->
  draw_fails env (BoundaryPlot i edge "black" 0.8) = false ->
  choropleth_panel env p cv fig (i, a) w =
    (append_log w [(fig, BoundaryPlot i edge "black" 0.8)], Ok tt).
Proof.
  intros Har Hax Hread Hmerge Hedge Hdraw. unfold bbox_tuple in *. run_panel.
  rewrite Har. cbv beta iota zeta.
  destruct (is_town p); [| assert (feats = edge) by congruence; subst feats];
    rewrite Hread, Hmerge, ?Hedge, Hax, Hdraw; reflexivity.
Qed.

(** C8: when the join of a panel matches at least one row, the panel gets
    exactly two drawing calls: the merged features filled by the value
    column under the request's colormap, then the county boundary.  A
    feature that matches no row is not part of the filled frame; every
    filled entry is a feature of the panel joined to a row with equal
    keys.  The fill call passes the colormap name but no [vmin]/[vmax], so
    geopandas normalises each panel's fill over that panel's merged
    values. *)
Theorem matched_join_fill_then_boundary (env : Env) (p : ChoroplethParams)
    (cv : Layout.Canvas) (fig i : nat) (a : string) (ar : Area) (ax : Layout.Axes)
    (feats edge : list Feature) (merged : list (Feature * Row)) (w : World) :
  dict_get a AREA_RANGE = Some ar ->
  nth_error (Layout.child_axes cv) i = Some ax ->
  (if is_town p then read_town env (bbox_tuple ar) else read_county env (bbox_tuple ar))
    = Some feats ->
  merge_res feats (Choropleth.data p) (choropleth_left_on p) (choropleth_right_on p)
    = Ok merged ->
  merged <> [] ->
  has_column (Choropleth.data p) (Choropleth.column p) = true ->
  read_county env (bbox_tuple ar) = Some edge ->
  draw_fails env (FillColumn i merged (Choropleth.column p) (Choropleth.cmap p)) = false ->
  draw_fails env (BoundaryPlot i edge "black" 0.8) = false ->
  choropleth_panel env p cv fig (i, a) w =
    (append_log w [(fig, FillColumn i merged (Choropleth.column p) (Choropleth.cmap p));
                   (fig, BoundaryPlot i edge "black" 0.8)], Ok tt) /\
  (forall f, In f feats ->
     (forall r, In r (Choropleth.data p) ->
        keys_match f r (choropleth_left_on p) (choropleth_right_on p) = false) ->
     ~ In f (map fst merged)) /\
  (forall fr, In fr merged ->
     In (fst fr) feats /\ In (snd fr) (Choropleth.data p) /\
     keys_match (fst fr) (snd fr) (choropleth_left_on p) (choropleth_right_on p) = true).
Proof.
  intros Har Hax Hread Hmerge Hne Hcol Hedge Hfill Hdraw.
  pose proof (merge_res_ok _ _ _ _ _ Hmerge) as Hm.
  split; [| split].
  - unfold bbox_tuple in *. run_panel.
    rewrite Har. cbv beta iota zeta. destruct merged as [| m ms]; [contradiction |].
    destruct (is_town p); [| assert (feats = edge) by congruence; subst feats];
      rewrite Hread, Hmerge, Hcol, Hax, Hfill, ?Hedge; cbv beta iota zeta;
      rewrite ?Hax, Hdraw; unfold append_log; simpl; rewrite <- app_assoc; reflexivity.
  - intros f Hf Hnone Hin. apply in_map_iff in Hin as [[f' r] [Heq Hin]].
    simpl in Heq. subst f' merged. apply merge_join_In in Hin as [_ [Hr Hk]].
    rewrite (Hnone r Hr) in Hk. discriminate.
  - intros [f r] Hin. subst merged. apply merge_join_In in Hin. exact Hin.
Qed.

(** Concrete inputs for the witnesses: two counties in every bbox. *)
Definition ax0 : Layout.Axes :=
  Layout.mkAxes None (Layout.mkRect 0 0 1 1) true true (0, 0) (0, 0).
Definition cv0 : Layout.Canvas := Layout.mkCanvas ax0 [ax0].
Definition taipei : Feature := mkFeature "臺北市" "" 1.
Definition new_taipei : Feature := mkFeature "新北市" "" 2.
Definition env2 : Env :=
  mkEnv (fun _ => Some [taipei; new_taipei]) (fun _ => Some []) (Some [])
        (fun _ => false) (fun _ => false) LifecycleFacts.digits_float.
Definition taiwan_area : Area :=
  snd (hd ("", mkArea "" 0 (0, 0) (mkBounds 0 0 0 0)) AREA_RANGE).
Definition w1 : World := mkWorld [0%nat] 1 0 [].

Definition row_taipei : Row := [("county", VStr "臺北市"); ("value", VNum 10)].
Definition p_kaohsiung : ChoroplethParams :=
  Choropleth.mkChoroplethParams [[("county", VStr "高雄市"); ("value", VNum 10)]]
    "value" (Some "county") "GnBu" "{x:,.0f}" true.
Definition p_taipei : ChoroplethParams :=
  Choropleth.mkChoroplethParams [row_taipei] "value" (Some "county") "GnBu" "{x:,.0f}" true.

Lemma empty_join_boundary_only_witness :
  choropleth_panel env2 p_kaohsiung cv0 0 (0%nat, "taiwan") w1 =
    (append_log w1 [(0%nat, BoundaryPlot 0 [taipei; new_taipei] "black" 0.8)], Ok tt).
Proof.
  apply (empty_join_boundary_only env2 p_kaohsiung cv0 0 0 "taiwan" taiwan_area ax0
           [taipei; new_taipei] [taipei; new_taipei] w1);
    vm_compute; reflexivity.
Defined.

Lemma matched_join_fill_then_boundary_witness :
  let merged := [(taipei, row_taipei)] in
  choropleth_panel env2 p_taipei cv0 0 (0%nat, "taiwan") w1 =
    (append_log w1 [(0%nat, FillColumn 0 merged "value" "GnBu");
                    (0%nat, BoundaryPlot 0 [taipei; new_taipei] "black" 0.8)], Ok tt) /\
  (forall f, In f [taipei; new_taipei] ->
     (forall r, In r [row_taipei] ->
        keys_match f r (choropleth_left_on p_taipei) (choropleth_right_on p_taipei) = false) ->
     ~ In f (map fst merged)) /\
  (forall fr, In fr merged ->
     In (fst fr) [taipei; new_taipei] /\ In (snd fr) [row_taipei] /\
     keys_match (fst fr) (snd fr) (choropleth_left_on p_taipei)
       (choropleth_right_on p_taipei) = true).
Proof.
  intros merged.
  apply (matched_join_fill_then_boundary env2 p_taipei cv0 0 0 "taiwan" taiwan_area ax0
           [taipei; new_taipei] [taipei; new_taipei] merged w1);
    first [discriminate | vm_compute; reflexivity].
Defined.

End ChoroplethFacts.

Module ColorScaleFacts.

Import Graph.
Open Scope Q_scope.
Open Scope list_scope.

Definition is_colorbar (c : Cmd) : bool :=
  match c with Colorbar _ _ _ _ _ => true | _ => false end.

(** [m] only appends drawing commands satisfying [P] to the log. *)
Definition emits (P : Cmd -> Prop) {A} (m : M A) : Prop :=
  forall w, exists new, log (fst (m w)) = (log w ++ new)%list /\ Forall (fun fc => P (snd fc)) new.

Lemma ret_emits P {A} (a : A) : emits P (ret a).
Proof. intros w. exists []. rewrite app_nil_r. auto. Qed.

Lemma raise_emits P {A} e : emits P (@raise A e).
Proof. intros w. exists []. rewrite app_nil_r. auto. Qed.

Lemma of_option_emits P {A} e (o : option A) : emits P (of_option e o).
Proof. destruct o; [apply ret_emits | apply raise_emits]. Qed.

Lemma lift_res_emits P {A} (r : res A) : emits P (lift_res r).
Proof. destruct r; [apply ret_emits | apply raise_emits]. Qed.

Lemma bind_emits P {A B} (m : M A) (k : A -> M B) :
  emits P m -> (forall a, emits P (k a)) -> emits P (bind m k).
Proof.
  intros Hm Hk w. unfold bind. destruct (Hm w) as [n1 [H1 F1]].
  destruct (m w) as [w1 [a | e]]; simpl in *.
  - destruct (Hk a w1) as [n2 [H2 F2]]. exists (n1 ++ n2).
    rewrite H2, H1, app_assoc. split; [reflexivity | apply Forall_app; auto].
  - exists n1. auto.
Qed.

Lemma for_each_emits P {A} (l : list A) (f : A -> M unit) :
  (forall x, emits P (f x)) -> emits P (for_each l f).
Proof.
  intros Hf. induction l as [| x l IH]; simpl.
  - apply ret_emits.
  - apply bind_emits; [apply Hf | intros _; exact IH].
Qed.

Lemma draw_emits (P : Cmd -> Prop) env fig c : P c -> emits P (draw env fig c).
Proof.
  intros Hc w. unfold draw. destruct (draw_fails env c); simpl.
  - exists []. rewrite app_nil_r. auto.
  - exists [(fig, c)]. auto.
Qed.

Definition no_colorbar (c : Cmd) : Prop := is_colorbar c = false.

Lemma choropleth_panel_no_colorbar env p cv fig ia :
  emits no_colorbar (choropleth_panel env p cv fig ia).
Proof.
  destruct ia as [i a].
  unfold choropleth_panel, bbox_of, get_area, get_county_gpd, get_town_gpd,
    merge_gdf_and_df, draw_on, child.
  repeat first
    [ apply bind_emits
    | apply of_option_emits
    | apply lift_res_emits
    | apply ret_emits
    | apply raise_emits
    | apply draw_emits; reflexivity
    | match goal with
      | |- emits _ (if ?b then _ else _) => destruct b
      | |- emits _ (match ?x with _ => _ end) => destruct x
      | |- forall _, _ => intros ?
      end ].
Qed.

Definition opt_Qeq (a b : option Q) : Prop :=
  match a, b with
  | Some x, Some y => x == y
  | None, None => True
  | _, _ => False
  end.

(** The least (the greatest) element of a list under a total preorder,
    as [fold_left] of the pairwise choice computes it. *)
Section Pick.

Variable A : Type.
Variable le : A -> A -> bool.
Hypothesis le_refl : forall a, le a a = true.
Hypothesis le_total : forall a b, le a b = false -> le b a = true.
Hypothesis le_trans : forall a b c, le a b = true -> le b c = true -> le a c = true.

Definition pmin (a b : A) : A := if le a b then a else b.
Definition pmax (a b : A) : A := if le a b then b else a.

Lemma fold_pmin_spec l q :
  In (fold_left pmin l q) (q :: l) /\
  forall x, In x (q :: l) -> le (fold_left pmin l q) x = true.
Proof.
  revert q. induction l as [| y l IH]; intros q; simpl.
  - split; [left; reflexivity | intros x [<- | []]; apply le_refl].
  - destruct (IH (pmin q y)) as [Hin Hle].
    assert (Hq : le (pmin q y) q = true /\ le (pmin q y) y = true).
    { unfold pmin. destruct (le q y) eqn:E; split; auto. }
    split.
    + destruct Hin as [Heq | Hin]; [| right; right; exact Hin].
      rewrite <- Heq. unfold pmin. destruct (le q y); simpl; auto.
    + intros x [<- | [<- | Hx]].
      * eapply le_trans; [apply Hle; left; reflexivity | apply Hq].
      * eapply le_trans; [apply Hle; left; reflexivity | apply Hq].
      * apply Hle. right. exact Hx.
Qed.

Lemma fold_pmax_spec l q :
  In (fold_left pmax l q) (q :: l) /\
  forall x, In x (q :: l) -> le x (fold_left pmax l q) = true.
Proof.
  revert q. induction l as [| y l IH]; intros q; simpl.
  - split; [left; reflexivity | intros x [<- | []]; apply le_refl].
  - destruct (IH (pmax q y)) as [Hin Hle].
    assert (Hq : le q (pmax q y) = true /\ le y (pmax q y) = true).
    { unfold pmax. destruct (le q y) eqn:E; split; auto. }
    split.
    + destruct Hin as [Heq | Hin]; [| right; right; exact Hin].
      rewrite <- Heq. unfold pmax. destruct (le q y); simpl; auto.
    + intros x [<- | [<- | Hx]].
      * eapply le_trans; [apply Hq | apply Hle; left; reflexivity].
      * eapply le_trans; [apply Hq | apply Hle; left; reflexivity].
      * apply Hle. right. exact Hx.
Qed.

Definition pick_min (l : list A) : option A :=
  match l with [] => None | q :: l' => Some (fold_left pmin l' q) end.
Definition pick_max (l : list A) : option A :=
  match l with [] => None | q :: l' => Some (fold_left pmax l' q) end.

Lemma pick_min_spec l m :
  pick_min l = Some m -> In m l /\ forall x, In x l -> le m x = true.
Proof.
  destruct l as [| q l]; [discriminate |]. intros H. injection H as <-.
  apply fold_pmin_spec.
Qed.

Lemma pick_max_spec l m :
  pick_max l = Some m -> In m l /\ forall x, In x l -> le x m = true.
Proof.
  destruct l as [| q l]; [discriminate |]. intros H. injection H as <-.
  apply fold_pmax_spec.
Qed.

Lemma pick_min_none l : pick_min l = None -> l = [].
Proof. destruct l; [reflexivity | discriminate]. Qed.

Lemma pick_max_none l : pick_max l = None -> l = [].
Proof. destruct l; [reflexivity | discriminate]. Qed.

(** Two lists with the same elements have mutually [le] least elements,
    and mutually [le] greatest ones. *)
Lemma pick_min_perm l l' :
  Permutation l l' ->
  match pick_min l, pick_min l' with
  | Some m, Some m' => le m m' = true /\ le m' m = true
  | None, None => True
  | _, _ => False
  end.
Proof.
  intros HP. destruct (pick_min l) as [m |] eqn:E, (pick_min l') as [m' |] eqn:E'.
  - apply pick_min_spec in E as [Hin Hle]. apply pick_min_spec in E' as [Hin' Hle'].
    split; [apply Hle | apply Hle'].
    + exact (Permutation_in _ (Permutation_sym HP) Hin').
    + exact (Permutation_in _ HP Hin).
  - apply pick_min_none in E'. subst l'. apply Permutation_sym, Permutation_nil in HP.
    subst l. discriminate.
  - apply pick_min_none in E. subst l. apply Permutation_nil in HP. subst l'. discriminate.
  - exact I.
Qed.

Lemma pick_max_perm l l' :
  Permutation l l' ->
  match pick_max l, pick_max l' with
  | Some m, Some m' => le m m' = true /\ le m' m = true
  | None, None => True
  | _, _ => False
  end.
Proof.
  intros HP. destruct (pick_max l) as [m |] eqn:E, (pick_max l') as [m' |] eqn:E'.
  - apply pick_max_spec in E as [Hin Hle]. apply pick_max_spec in E' as [Hin' Hle'].
    split; [apply Hle' | apply Hle].
    + exact (Permutation_in _ HP Hin).
    + exact (Permutation_in _ (Permutation_sym HP) Hin').
  - apply pick_max_none in E'. subst l'. apply Permutation_sym, Permutation_nil in HP.
    subst l. discriminate.
  - apply pick_max_none in E. subst l. apply Permutation_nil in HP. subst l'. discriminate.
  - exact I.
Qed.

End Pick.

Arguments pick_min_spec {A le} _ _ _ _ _ _.
Arguments pick_max_spec {A le} _ _ _ _ _ _.
Arguments pick_min_none {A le} _ _.
Arguments pick_max_none {A le} _ _.

(** [Qle_bool] and [String.leb] are total preorders. *)
Lemma Qle_bool_refl a : Qle_bool a a = true.
Proof. apply Qle_bool_iff, Qle_refl. Qed.

Lemma Qle_bool_total a b : Qle_bool a b = false -> Qle_bool b a = true.
Proof.
  intros H. apply Qle_bool_iff, Qlt_le_weak, Qnot_le_lt. intros H'.
  apply Qle_bool_iff in H'. congruence.
Qed.

Lemma Qle_bool_trans a b c : Qle_bool a b = true -> Qle_bool b c = true -> Qle_bool a c = true.
Proof. rewrite !Qle_bool_iff. apply Qle_trans. Qed.

Lemma str_compare_refl s : String.compare s s = Eq.
Proof.
  induction s as [| ch s IH]; [reflexivity |]. simpl.
  unfold Ascii.compare. rewrite N.compare_refl. exact IH.
Qed.

Lemma str_compare_trans s1 s2 s3 :
  String.compare s1 s2 <> Gt -> String.compare s2 s3 <> Gt -> String.compare s1 s3 <> Gt.
Proof.
  revert s2 s3. induction s1 as [| a s1 IH]; intros [| b s2] [| c s3]; simpl;
    try congruence.
  unfold Ascii.compare.
  destruct (N.compare_spec (Ascii.N_of_ascii a) (Ascii.N_of_ascii b)) as [Hab | Hab | Hab];
  destruct (N.compare_spec (Ascii.N_of_ascii b) (Ascii.N_of_ascii c)) as [Hbc | Hbc | Hbc];
  destruct (N.compare_spec (Ascii.N_of_ascii a) (Ascii.N_of_ascii c)) as [Hac | Hac | Hac];
  intros H1 H2; try congruence; try lia.
  apply (IH s2 s3 H1 H2).
Qed.

Lemma str_leb_refl s : String.leb s s = true.
Proof. unfold String.leb. rewrite str_compare_refl. reflexivity. Qed.

Lemma str_leb_total a b : String.leb a b = false -> String.leb b a = true.
Proof. intros H. destruct (String.leb_total a b); congruence. Qed.

Lemma str_leb_trans a b c :
  String.leb a b = true -> String.leb b c = true -> String.leb a c = true.
Proof.
  unfold String.leb. intros H1 H2.
  assert (T : String.compare a c <> Gt).
  { apply (str_compare_trans a b c).
    - destruct (String.compare a b); congruence.
    - destruct (String.compare b c); congruence. }
  destruct (String.compare a c); congruence.
Qed.

Lemma list_min_perm l l' : Permutation l l' -> opt_Qeq (list_min l) (list_min l').
Proof.
  intros HP. pose proof (pick_min_perm Q Qle_bool Qle_bool_refl Qle_bool_total Qle_bool_trans l l' HP) as H.
  change (list_min l) with (pick_min Q Qle_bool l).
  change (list_min l') with (pick_min Q Qle_bool l').
  destruct (pick_min Q Qle_bool l), (pick_min Q Qle_bool l'); simpl in *; try tauto.
  destruct H as [H1 H2]. apply Qle_bool_iff in H1, H2. apply Qle_antisym; assumption.
Qed.

Lemma list_max_perm l l' : Permutation l l' -> opt_Qeq (list_max l) (list_max l').
Proof.
  intros HP. pose proof (pick_max_perm Q Qle_bool Qle_bool_refl Qle_bool_total Qle_bool_trans l l' HP) as H.
  change (list_max l) with (pick_max Q Qle_bool l).
  change (list_max l') with (pick_max Q Qle_bool l').
  destruct (pick_max Q Qle_bool l), (pick_max Q Qle_bool l'); simpl in *; try tauto.
  destruct H as [H1 H2]. apply Qle_bool_iff in H1, H2. apply Qle_antisym; assumption.
Qed.

Lemma slist_min_perm l l' : Permutation l l' -> slist_min l = slist_min l'.
Proof.
  intros HP.
  pose proof (pick_min_perm string String.leb str_leb_refl str_leb_total str_leb_trans l l' HP) as H.
  change (slist_min l) with (pick_min string String.leb l).
  change (slist_min l') with (pick_min string String.leb l').
  destruct (pick_min string String.leb l), (pick_min string String.leb l'); try tauto.
  destruct H as [H1 H2]. f_equal. apply String.leb_antisym; assumption.
Qed.

Lemma slist_max_perm l l' : Permutation l l' -> slist_max l = slist_max l'.
Proof.
  intros HP.
  pose proof (pick_max_perm string String.leb str_leb_refl str_leb_total str_leb_trans l l' HP) as H.
  change (slist_max l) with (pick_max string String.leb l).
  change (slist_max l') with (pick_max string String.leb l').
  destruct (pick_max string String.leb l), (pick_max string String.leb l'); try tauto.
  destruct H as [H1 H2]. f_equal. apply String.leb_antisym; assumption.
Qed.

Lemma existsb_perm {A} (f : A -> bool) l l' :
  Permutation l l' -> existsb f l = existsb f l'.
Proof.
  induction 1; simpl.
  - reflexivity.
  - rewrite IHPermutation. reflexivity.
  - destruct (f x), (f y); reflexivity.
  - congruence.
Qed.

Lemma forallb_perm {A} (f : A -> bool) l l' :
  Permutation l l' -> forallb f l = forallb f l'.
Proof.
  induction 1; simpl.
  - reflexivity.
  - rewrite IHPermutation. reflexivity.
  - destruct (f x), (f y); reflexivity.
  - congruence.
Qed.

Lemma has_column_perm df df' c :
  Permutation df df' -> has_column df c = has_column df' c.
Proof. intros HP. unfold has_column. apply existsb_perm. exact HP. Qed.

(** The cells of the column, as [series_extreme] collects them. *)
Lemma in_str_cells df c s :
  In s (str_cells (map (fun r => cell r c) df)) <-> exists r, In r df /\ cell r c = VStr s.
Proof.
  unfold str_cells. rewrite in_flat_map. split.
  - intros [v [Hv Hs]]. apply in_map_iff in Hv as [r [Hrv Hr]]. subst v.
    destruct (cell r c) as [s' | q |] eqn:E; simpl in Hs; [| contradiction | contradiction].
    destruct Hs as [<- | []]. eauto.
  - intros [r [Hr Hc]]. exists (VStr s). split; [| left; reflexivity].
    apply in_map_iff. eauto.
Qed.

Lemma in_num_cells df c q :
  In q (num_cells (map (fun r => cell r c) df)) <-> exists r, In r df /\ cell r c = VNum q.
Proof.
  unfold num_cells. rewrite in_flat_map. split.
  - intros [v [Hv Hs]]. apply in_map_iff in Hv as [r [Hrv Hr]]. subst v.
    destruct (cell r c) as [s | q' |] eqn:E; simpl in Hs; [contradiction | | contradiction].
    destruct Hs as [<- | []]. eauto.
  - intros [r [Hr Hc]]. exists (VNum q). split; [| left; reflexivity].
    apply in_map_iff. eauto.
Qed.

(** [v] is an extreme of column [c] over all rows of [df] for the orders
    [Rq] on numbers and [Rs] on strings: a number of the column in
    relation [Rq] to every number of it, or a string of the column in
    relation [Rs] to every string of it; [None] when every cell of the
    column is missing. *)
Definition column_extreme (Rq : Q -> Q -> Prop) (Rs : string -> string -> Prop)
    (df : list Row) (c : string) (v : option Val) : Prop :=
  match v with
  | Some (VNum q) =>
      (exists r, In r df /\ cell r c = VNum q) /\
      forall r q', In r df -> cell r c = VNum q' -> Rq q q'
  | Some (VStr s) =>
      (exists r, In r df /\ cell r c = VStr s) /\
      forall r s', In r df -> cell r c = VStr s' -> Rs s s'
  | Some VNull => False
  | None => forall r, In r df -> cell r c = VNull
  end.

(** The least value of the column (numbers by value, strings in Python's
    order), and the greatest. *)
Definition column_least : list Row -> string -> option Val -> Prop :=
  column_extreme (fun q q' => q <= q') (fun s s' => String.leb s s' = true).
Definition column_greatest : list Row -> string -> option Val -> Prop :=
  column_extreme (fun q q' => q' <= q) (fun s s' => String.leb s' s = true).

Lemma series_extreme_spec (qpick : list Q -> option Q) (spick : list string -> option string)
    (Rq : Q -> Q -> Prop) (Rs : string -> string -> Prop) df c v :
  (forall l m, qpick l = Some m -> In m l /\ forall x, In x l -> Rq m x) ->
  (forall l, qpick l = None -> l = []) ->
  (forall l m, spick l = Some m -> In m l /\ forall x, In x l -> Rs m x) ->
  (forall l, spick l = None -> l = []) ->
  series_extreme qpick spick df c = Ok v -> column_extreme Rq Rs df c v.
Proof.
  intros Hq Hq0 Hs Hs0. unfold series_extreme.
  destruct (has_column df c); simpl negb; cbv iota; [| discriminate].
  destruct (existsb is_str (map (fun r => cell r c) df)) eqn:Es.
  - destruct (forallb is_str (map (fun r => cell r c) df)); [| discriminate].
    intros H. injection H as <-.
    destruct (spick (str_cells (map (fun r => cell r c) df))) as [m |] eqn:Em; simpl.
    + apply Hs in Em as [Hin Hle]. split.
      * apply in_str_cells. exact Hin.
      * intros r s' Hr Hc. apply Hle. apply in_str_cells. eauto.
    + exfalso. apply Hs0 in Em. apply existsb_exists in Es as [v [Hv Hsv]].
      apply in_map_iff in Hv as [r [Hrv Hr]]. subst v.
      destruct (cell r c) as [s | q |] eqn:E; try discriminate Hsv.
      assert (Hin : In s (str_cells (map (fun r => cell r c) df)))
        by (apply in_str_cells; eauto).
      rewrite Em in Hin. exact Hin.
  - intros H. injection H as <-.
    destruct (qpick (num_cells (map (fun r => cell r c) df))) as [m |] eqn:Em; simpl.
    + apply Hq in Em as [Hin Hle]. split.
      * apply in_num_cells. exact Hin.
      * intros r q' Hr Hc. apply Hle. apply in_num_cells. eauto.
    + apply Hq0 in Em. intros r Hr.
      destruct (cell r c) as [s | q |] eqn:E; [exfalso | exfalso | reflexivity].
      * assert (Hex : existsb is_str (map (fun r => cell r c) df) = true).
        { apply existsb_exists. exists (VStr s). split; [| reflexivity].
          apply in_map_iff. eauto. }
        congruence.
      * assert (Hin : In q (num_cells (map (fun r => cell r c) df)))
          by (apply in_num_cells; eauto).
        rewrite Em in Hin. exact Hin.
Qed.

Lemma series_min_least df c v : series_min_res df c = Ok v -> column_least df c v.
Proof.
  apply series_extreme_spec.
  - intros l m H. destruct (pick_min_spec Qle_bool_refl Qle_bool_total Qle_bool_trans l m H) as [Hin Hle].
    split; [exact Hin | intros x Hx; apply Qle_bool_iff, Hle, Hx].
  - exact (pick_min_none (le := Qle_bool)).
  - exact (pick_min_spec str_leb_refl str_leb_total str_leb_trans).
  - exact (pick_min_none (le := String.leb)).
Qed.

Lemma series_max_greatest df c v : series_max_res df c = Ok v -> column_greatest df c v.
Proof.
  apply series_extreme_spec.
  - intros l m H. destruct (pick_max_spec Qle_bool_refl Qle_bool_total Qle_bool_trans l m H) as [Hin Hle].
    split; [exact Hin | intros x Hx; apply Qle_bool_iff, Hle, Hx].
  - exact (pick_max_none (le := Qle_bool)).
  - exact (pick_max_spec str_leb_refl str_leb_total str_leb_trans).
  - exact (pick_max_none (le := String.leb)).
Qed.

(** Equality of extremes: numbers up to [Qeq]. *)
Definition vopt_eq (a b : option Val) : Prop :=
  match a, b with
  | Some (VNum x), Some (VNum y) => x == y
  | _, _ => a = b
  end.

Definition res_veq (r1 r2 : res (option Val)) : Prop :=
  match r1, r2 with
  | Ok a, Ok b => vopt_eq a b
  | Err e1, Err e2 => e1 = e2
  | _, _ => False
  end.

Lemma series_extreme_perm qpick spick df df' c :
  (forall l l', Permutation l l' -> opt_Qeq (qpick l) (qpick l')) ->
  (forall l l', Permutation l l' -> spick l = spick l') ->
  Permutation df df' ->
  res_veq (series_extreme qpick spick df c) (series_extreme qpick spick df' c).
Proof.
  intros Hq Hs HP. unfold series_extreme. rewrite (has_column_perm _ _ c HP).
  destruct (has_column df' c); simpl negb; cbv iota; [| reflexivity].
  assert (Hc : Permutation (map (fun r => cell r c) df) (map (fun r => cell r c) df'))
    by (apply Permutation_map; exact HP).
  rewrite (existsb_perm is_str _ _ Hc), (forallb_perm is_str _ _ Hc).
  unfold str_cells, num_cells.
  destruct (existsb is_str (map (fun r => cell r c) df'));
    [destruct (forallb is_str (map (fun r => cell r c) df')) |].
  - rewrite (Hs _ _ (Permutation_flat_map
                        (fun v => match v with VStr s => [s] | _ => [] end) Hc)).
    destruct (spick _); reflexivity.
  - reflexivity.
  - pose proof (Hq _ _ (Permutation_flat_map
                          (fun v => match v with VNum q => [q] | _ => [] end) Hc)) as H.
    destruct (qpick (flat_map _ (map _ df))), (qpick (flat_map _ (map _ df')));
      simpl in *; tauto.
Qed.

(** The range [_colorbar] draws: [df[c].min()] and [df[c].max()], each
    converted by [Normalize]. *)
Definition colorbar_range (env : Env) (df : list Row) (c : string)
  : res (option Q * option Q) :=
  match series_min_res df c with
  | Err e => Err e
  | Ok vmin =>
      match series_max_res df c with
      | Err e => Err e
      | Ok vmax =>
          match _sanitize_extrema env vmin with
          | Err e => Err e
          | Ok lo =>
              match _sanitize_extrema env vmax with
              | Err e => Err e
              | Ok hi => Ok (lo, hi)
              end
          end
      end
  end.

Definition range_eq (r1 r2 : res (option Q * option Q)) : Prop :=
  match r1, r2 with
  | Ok (a1, b1), Ok (a2, b2) => opt_Qeq a1 a2 /\ opt_Qeq b1 b2
  | Err e1, Err e2 => e1 = e2
  | _, _ => False
  end.

Lemma sanitize_veq env a b :
  vopt_eq a b ->
  match _sanitize_extrema env a, _sanitize_extrema env b with
  | Ok x, Ok y => opt_Qeq x y
  | Err e1, Err e2 => e1 = e2
  | _, _ => False
  end.
Proof.
  destruct a as [[s | q |] |], b as [[s' | q' |] |]; simpl; intros H;
    try discriminate H; try exact I.
  - injection H as <-. destruct (py_float env s); simpl; [apply Qeq_refl | reflexivity].
  - exact H.
Qed.

Lemma colorbar_range_perm env df df' c :
  Permutation df df' -> range_eq (colorbar_range env df c) (colorbar_range env df' c).
Proof.
  intros HP. unfold colorbar_range.
  pose proof (series_extreme_perm list_min slist_min df df' c
                list_min_perm slist_min_perm HP) as H1.
  pose proof (series_extreme_perm list_max slist_max df df' c
                list_max_perm slist_max_perm HP) as H2.
  unfold series_min_res, series_max_res.
  destruct (series_extreme list_min slist_min df c) as [a | e1];
    destruct (series_extreme list_min slist_min df' c) as [a' | e1'];
    simpl in H1; try contradiction; [| subst; reflexivity].
  destruct (series_extreme list_max slist_max df c) as [b | e2];
    destruct (series_extreme list_max slist_max df' c) as [b' | e2'];
    simpl in H2; try contradiction; [| subst; reflexivity].
  pose proof (sanitize_veq env a a' H1) as S1. pose proof (sanitize_veq env b b' H2) as S2.
  destruct (_sanitize_extrema env a) as [x | f1];
    destruct (_sanitize_extrema env a') as [x' | f1']; try contradiction;
    [| subst; reflexivity].
  destruct (_sanitize_extrema env b) as [y | f2];
    destruct (_sanitize_extrema env b') as [y' | f2']; try contradiction;
    [split; assumption | subst; reflexivity].
Qed.

Lemma gp_base_log w : log (fst (gp_base w)) = log w.
Proof.
  cbv [gp_base bind subplots of_option ret raise]. destruct Layout.base; reflexivity.
Qed.

(** C5: a successful [plot_choropleth] draws exactly one colorbar, after
    the drawing calls of all panels (none of which is a colorbar).  Its
    range comes from [df[column].min()] and [df[column].max()] over all
    rows of the request, whichever panel they match, if any: the least
    and the greatest value of the column (numbers by value, a column of
    strings in Python's string order), converted by [Normalize].  That
    range does not depend on the order of the rows: a permutation of the
    rows gives the same range, or the same error. *)
Theorem colorbar_once_over_all_rows (env : Env) (p : ChoroplethParams) (w w' : World)
    (fig : nat) (cv : Layout.Canvas) :
  plot_choropleth env p w = (w', Ok (fig, cv)) ->
  (exists new vmin vmax lo hi,
     log w' = log w ++ new ++
       [(fig, Colorbar lo hi (Choropleth.cmap p)
                (Choropleth.colorbar_format p) (Choropleth.colorbar_tick_visible p))] /\
     Forall (fun fc => is_colorbar (snd fc) = false) new /\
     series_min_res (Choropleth.data p) (Choropleth.column p) = Ok vmin /\
     series_max_res (Choropleth.data p) (Choropleth.column p) = Ok vmax /\
     column_least (Choropleth.data p) (Choropleth.column p) vmin /\
     column_greatest (Choropleth.data p) (Choropleth.column p) vmax /\
     colorbar_range env (Choropleth.data p) (Choropleth.column p) = Ok (lo, hi)) /\
  (forall data', Permutation (Choropleth.data p) data' ->
     range_eq (colorbar_range env (Choropleth.data p) (Choropleth.column p))
              (colorbar_range env data' (Choropleth.column p))).
Proof.
  intros H. split; [| intros data' HP; apply colorbar_range_perm; exact HP].
  unfold plot_choropleth, bind at 1 in H. pose proof (gp_base_log w) as Hl1.
  destruct (gp_base w) as [w1 [[fig1 cv1] | e]]; [| discriminate]. simpl in Hl1.
  unfold bind at 1 in H.
  destruct (for_each_emits no_colorbar area_list _
              (choropleth_panel_no_colorbar env p cv1 fig1) w1) as [n [Hn Fn]].
  destruct (for_each area_list (choropleth_panel env p cv1 fig1) w1)
    as [w2 [u | e]]; [| discriminate]. simpl in Hn.
  unfold series_min, series_max, _colorbar in H. unfold lift_res, draw, bind, ret, raise in H.
  destruct (series_min_res (Choropleth.data p) (Choropleth.column p))
    as [vmin | e] eqn:E1; [| discriminate].
  destruct (series_max_res (Choropleth.data p) (Choropleth.column p))
    as [vmax | e] eqn:E2; [| discriminate].
  destruct (_sanitize_extrema env vmin) as [lo | e] eqn:E3; [| discriminate].
  destruct (_sanitize_extrema env vmax) as [hi | e] eqn:E4; [| discriminate].
  destruct (draw_fails env _); [discriminate |].
  injection H as <- <- <-. exists n, vmin, vmax, lo, hi. simpl.
  split; [rewrite Hn, Hl1, app_assoc; reflexivity |].
  split; [exact Fn |]. split; [reflexivity | split; [reflexivity |]].
  split; [exact (series_min_least _ _ _ E1) |].
  split; [exact (series_max_greatest _ _ _ E2) |].
  unfold colorbar_range. rewrite E1, E2, E3, E4. reflexivity.
Qed.

Definition cv_base : Layout.Canvas :=
  match Layout.base with Some c => c | None => ChoroplethFacts.cv0 end.

(** Three rows, only two of which match a county of the panels: the
    range comes from all three.  And a column of digit strings, whose
    range follows the string order: "10" sorts before "9". *)
Definition rows3 : list Row :=
  [ChoroplethFacts.row_taipei;
   [("county", VStr "新北市"); ("value", VNum 20)];
   [("county", VStr "高雄市"); ("value", VNum 5)]].
Definition p_rows3 : ChoroplethParams :=
  Choropleth.mkChoroplethParams rows3 "value" (Some "county") "GnBu" "{x:,.0f}" true.
Definition rows_str : list Row :=
  [[("county", VStr "臺北市"); ("value", VStr "9")];
   [("county", VStr "新北市"); ("value", VStr "10")]].
Definition p_str : ChoroplethParams :=
  Choropleth.mkChoroplethParams rows_str "value" (Some "county") "GnBu" "{x:,.0f}" true.

Lemma colorbar_once_over_all_rows_witness :
  let w := mkWorld [] 0 0 [] in
  let r1 := plot_choropleth ChoroplethFacts.env2 p_rows3 w in
  let r2 := plot_choropleth ChoroplethFacts.env2 p_str w in
  r1 = (fst r1, Ok (0%nat, cv_base)) /\
  r2 = (fst r2, Ok (0%nat, cv_base)) /\
  colorbar_range ChoroplethFacts.env2 rows3 "value" = Ok (Some 5, Some 20) /\
  colorbar_range ChoroplethFacts.env2 rows_str "value" = Ok (Some 10, Some 9) /\
  (exists new vmin vmax lo hi,
     log (fst r1) = log w ++ new ++ [(0%nat, Colorbar lo hi "GnBu" "{x:,.0f}" true)] /\
     Forall (fun fc => is_colorbar (snd fc) = false) new /\
     series_min_res rows3 "value" = Ok vmin /\ series_max_res rows3 "value" = Ok vmax /\
     column_least rows3 "value" vmin /\ column_greatest rows3 "value" vmax /\
     colorbar_range ChoroplethFacts.env2 rows3 "value" = Ok (lo, hi)) /\
  range_eq (colorbar_range ChoroplethFacts.env2 rows3 "value")
           (colorbar_range ChoroplethFacts.env2 (rev rows3) "value") /\
  (exists new vmin vmax lo hi,
     log (fst r2) = log w ++ new ++ [(0%nat, Colorbar lo hi "GnBu" "{x:,.0f}" true)] /\
     Forall (fun fc => is_colorbar (snd fc) = false) new /\
     series_min_res rows_str "value" = Ok vmin /\ series_max_res rows_str "value" = Ok vmax /\
     column_least rows_str "value" vmin /\ column_greatest rows_str "value" vmax /\
     colorbar_range ChoroplethFacts.env2 rows_str "value" = Ok (lo, hi)) /\
  range_eq (colorbar_range ChoroplethFacts.env2 rows_str "value")
           (colorbar_range ChoroplethFacts.env2 (rev rows_str) "value").
Proof.
  intros w r1 r2.
  assert (H1 : r1 = (fst r1, Ok (0%nat, cv_base))) by (vm_compute; reflexivity).
  assert (H2 : r2 = (fst r2, Ok (0%nat, cv_base))) by (vm_compute; reflexivity).
  destruct (colorbar_once_over_all_rows ChoroplethFacts.env2 p_rows3 w _ 0 cv_base H1)
    as [A1 B1].
  destruct (colorbar_once_over_all_rows ChoroplethFacts.env2 p_str w _ 0 cv_base H2)
    as [A2 B2].
  split; [exact H1 |]. split; [exact H2 |].
  split; [vm_compute; reflexivity |]. split; [vm_compute; reflexivity |].
  split; [exact A1 |]. split; [exact (B1 _ (Permutation_rev rows3)) |].
  split; [exact A2 | exact (B2 _ (Permutation_rev rows_str))].
Defined.

End ColorScaleFacts.

Module ValidationFacts.

Import Graph App.

Definition w0 : World := mkWorld [] 0 0 [].


Lemma plot_boundary_canvas env w w1 fig cv :
  plot_boundary env w = (w1, Ok (fig, cv)) -> Layout.base = Some cv.
Proof.
  unfold plot_boundary, gp_base, bind, subplots, of_option, ret, raise.
  destruct Layout.base as [c |]; [| discriminate].
  destruct (for_each _ _ _) as [w2 [u | e]]; [| discriminate].
  intros H. injection H as _ _ <-. reflexivity.
Qed.

Lemma area_list_head : area_list = (0%nat, "taiwan") :: tl area_list.
Proof. vm_compute. reflexivity. Qed.

Lemma first_child_exists cv :
  Layout.base = Some cv -> exists ax, nth_error (Layout.child_axes cv) 0 = Some ax.
Proof.
  intros Hb. destruct (nth_error (Layout.child_axes cv) 0) as [ax |] eqn:E; [eauto |].
  exfalso. vm_compute in Hb. injection Hb as <-. discriminate E.
Qed.

Definition dot_3_2 : DotParams :=
  Dot.mkDotParams [120.96; 121; 121.5] [23.7; 24] 10 "red" 0.5.




Definition cv_base : Layout.Canvas :=
  match Layout.base with Some c => c | None => ChoroplethFacts.cv0 end.



Definition with_level (p : ChoroplethParams) (l : option string) : ChoroplethParams :=
  Choropleth.mkChoroplethParams (Choropleth.data p) (Choropleth.column p) l
    (Choropleth.cmap p) (Choropleth.colorbar_format p) (Choropleth.colorbar_tick_visible p).

(** C7 (counterexample): the level "village" is not rejected: on two
    counties with a matching row, [plot_choropleth] returns the figure
    normally, exactly as with level "county". *)
Lemma unknown_level_renders_as_county :
  let p := ChoroplethFacts.p_taipei in
  exists w',
    plot_choropleth ChoroplethFacts.env2 (with_level p (Some "village")) w0 =
      (w', Ok (0%nat, cv_base)) /\
    plot_choropleth ChoroplethFacts.env2 (with_level p (Some "county")) w0 =
      (w', Ok (0%nat, cv_base)).
Proof.
  intros p. exists (fst (plot_choropleth ChoroplethFacts.env2 (with_level p (Some "county")) w0)).
  split; vm_compute; reflexivity.
Qed.

(** C7 (amended): [plot_choropleth] validates no level: every level other
    than "town" (including an unknown string and [None]) selects the county
    geometry and the [COUNTYNAME]/[county] join, and the call behaves
    exactly as with level "county". *)
Theorem non_town_level_is_county (env : Env) (p : ChoroplethParams) (w : World) :
  is_town p = false ->
  plot_choropleth env p w = plot_choropleth env (with_level p (Some "county")) w.
Proof.
  intros Ht. destruct p as [d c l cm f t]. unfold with_level. cbn [Choropleth.data
    Choropleth.column Choropleth.cmap Choropleth.colorbar_format
    Choropleth.colorbar_tick_visible].
  unfold plot_choropleth, choropleth_panel, choropleth_left_on, choropleth_right_on.
  rewrite Ht. reflexivity.
Qed.

Lemma non_town_level_is_county_witness :
  plot_choropleth ChoroplethFacts.env2 (with_level ChoroplethFacts.p_taipei (Some "village")) w0 =
  plot_choropleth ChoroplethFacts.env2
    (with_level (with_level ChoroplethFacts.p_taipei (Some "village")) (Some "county")) w0.
Proof.
  apply (non_town_level_is_county ChoroplethFacts.env2
           (with_level ChoroplethFacts.p_taipei (Some "village")) w0).
  vm_compute. reflexivity.
Defined.

End ValidationFacts.

Module DensityFacts.

Import Graph.
Open Scope list_scope.

Definition append_log (w : World) (cs : list (nat * Cmd)) : World :=
  mkWorld (live w) (next_fig w) (counter w) (log w ++ cs).

(** A loop whose body, when it returns, appended exactly [g x]. *)
Lemma for_each_appends {A} (l : list A) (f : A -> M unit) (fig : nat) (g : A -> Cmd) :
  (forall x w w' u, f x w = (w', Ok u) -> w' = append_log w [(fig, g x)]) ->
  forall w w' u, for_each l f w = (w', Ok u) ->
  log w' = log w ++ map (fun x => (fig, g x)) l /\ live w' = live w.
Proof.
  intros Hf. induction l as [| x l IH]; intros w w' u H; simpl in H.
  - injection H as <- _. rewrite app_nil_r. auto.
  - unfold bind in H. destruct (f x w) as [w1 [v | e]] eqn:E; [| discriminate].
    apply Hf in E. subst w1. apply IH in H as [Hl Hlv]. simpl in *.
    rewrite Hl, <- app_assoc. auto.
Qed.

(** The [range] argument [plot_hist2d] passes for region [a]. *)
Definition range_of (a : string) : (Q * Q) * (Q * Q) :=
  match dict_get a AREA_RANGE with
  | Some ar => let b := bounds ar in ((min_x b, max_x b), (min_y b, max_y b))
  | None => ((0, 0), (0, 0))%Q
  end.

Lemma hist2d_panel_appends env p cv fig ia w w' u :
  hist2d_panel env p cv fig ia w = (w', Ok u) ->
  w' = append_log w [(fig, Hist2d (fst ia) (Hist2D.x p) (Hist2D.y p) (Hist2D.bins p)
                            (Hist2D.cmap p) (Hist2D.alpha p) (range_of (snd ia))
                            (Hist2D.cmin p))].
Proof.
  destruct ia as [i a].
  unfold hist2d_panel, hist2d_on, get_area, child, draw, of_option, bind, ret, raise,
    range_of. intros H. change (snd (i, a)) with a. change (fst (i, a)) with i.
  destruct (dict_get a AREA_RANGE) as [ar |]; [| discriminate H].
  destruct (nth_error (Layout.child_axes cv) i); [| discriminate H].
  destruct (Nat.eqb _ _); [| discriminate H].
  destruct (draw_fails env _); [discriminate H |].
  injection H as <- _. reflexivity.
Qed.

(** C9: a successful [plot_hist2d] draws, after the boundary map, one
    [hist2d] on each panel [i] of [area_list], in that order, with the
    request's bin count, colormap, alpha and minimum count, and with the
    range [(min_x, max_x), (min_y, max_y)] of that panel's region, which
    are the limits of [ax.child_axes[i]]. *)
Theorem hist2d_range_is_panel_bounds (env : Env) (p : Hist2DParams) (w w' : World)
    (fig : nat) (cv : Layout.Canvas) :
  plot_hist2d env p w = (w', Ok (fig, cv)) ->
  (exists wb,
     plot_boundary env w = (wb, Ok (fig, cv)) /\
     log w' = log wb ++
       map (fun ia => (fig, Hist2d (fst ia) (Hist2D.x p) (Hist2D.y p) (Hist2D.bins p)
                          (Hist2D.cmap p) (Hist2D.alpha p) (range_of (snd ia))
                          (Hist2D.cmin p))) area_list) /\
  (forall i a, In (i, a) area_list ->
     exists ax, nth_error (Layout.child_axes cv) i = Some ax /\
       range_of a = (Layout.xlim ax, Layout.ylim ax)).
Proof.
  intros H. unfold plot_hist2d, bind at 1 in H.
  destruct (plot_boundary env w) as [wb [[fig1 cv1] | e]] eqn:Eb; [| discriminate].
  unfold bind in H.
  destruct (for_each area_list (hist2d_panel env p cv1 fig1) wb) as [w2 [u | e]] eqn:El;
    [| discriminate].
  unfold ret in H. injection H as <- <- <-.
  pose proof (ValidationFacts.plot_boundary_canvas _ _ _ _ _ Eb) as Hcv.
  split.
  - exists wb. split; [reflexivity |].
    apply (for_each_appends area_list _ fig1 _ (hist2d_panel_appends env p cv1 fig1)) in El.
    apply El.
  - vm_compute in Hcv. injection Hcv as <-.
    intros i a Hin. vm_compute in Hin.
    repeat (destruct Hin as [Hin | Hin]; [injection Hin as <- <-;
      eexists; split; [reflexivity | vm_compute; reflexivity] |]).
    contradiction.
Qed.

Lemma hist2d_range_is_panel_bounds_witness :
  let p := Hist2D.mkHist2DParams [120.96; 119.57] [23.70; 23.57] 100 "GnBu" 0.5 1 in
  let r := plot_hist2d LifecycleFacts.quiet_env p ValidationFacts.w0 in
  r = (fst r, Ok (0%nat, ValidationFacts.cv_base)) /\
  ((exists wb,
     plot_boundary LifecycleFacts.quiet_env ValidationFacts.w0 =
       (wb, Ok (0%nat, ValidationFacts.cv_base)) /\
     log (fst r) = log wb ++
       map (fun ia => (0%nat, Hist2d (fst ia) (Hist2D.x p) (Hist2D.y p) (Hist2D.bins p)
                          (Hist2D.cmap p) (Hist2D.alpha p) (range_of (snd ia))
                          (Hist2D.cmin p))) area_list) /\
   (forall i a, In (i, a) area_list ->
     exists ax, nth_error (Layout.child_axes ValidationFacts.cv_base) i = Some ax /\
       range_of a = (Layout.xlim ax, Layout.ylim ax))).
Proof.
  intros p r.
  assert (Hr : r = (fst r, Ok (0%nat, ValidationFacts.cv_base))) by (vm_compute; reflexivity).
  split; [exact Hr |].
  exact (hist2d_range_is_panel_bounds LifecycleFacts.quiet_env p ValidationFacts.w0
           (fst r) 0 ValidationFacts.cv_base Hr).
Defined.

End DensityFacts.

Module SubsidyFacts.

Import Graph.
Open Scope list_scope.

Definition transparent : string := "#ffffff00".

Lemma colormap_not_transparent t c : dict_get t colormap = Some c -> c <> transparent.
Proof.
  unfold colormap. simpl.
  repeat match goal with |- context [String.eqb ?x ?y] => destruct (String.eqb x y) end;
    intros H; try discriminate H; injection H as <-; discriminate.
Qed.

(** C10: in [plot_boundary_with_subsidy], a town is filled with the fully
    transparent "#ffffff00" exactly when its [COUNTYNAME + TOWNNAME] is not
    in the classification map or its category is not in the fixed
    category-to-color table; otherwise with that table's colour.  Each
    panel draws the county and town boundaries, then fills every town of
    the panel with these colours. *)
Theorem subsidy_fill_colors (town_type : list (string * string)) (f : Feature) :
  (town_color town_type f = transparent <->
     dict_get (COUNTYNAME f ++ TOWNNAME f)%string town_type = None \/
     exists t, dict_get (COUNTYNAME f ++ TOWNNAME f)%string town_type = Some t /\
               dict_get t colormap = None) /\
  (forall t c, dict_get (COUNTYNAME f ++ TOWNNAME f)%string town_type = Some t ->
     dict_get t colormap = Some c -> town_color town_type f = c) /\
  (forall env cv fig i a w w' u,
     subsidy_panel env town_type cv fig (i, a) w = (w', Ok u) ->
     exists county_gdf town_gdf,
       log w' = log w ++
         [(fig, BoundaryPlot i county_gdf "black" 0.8);
          (fig, BoundaryPlot i town_gdf "gray" 0.5);
          (fig, FillColors i town_gdf (map (town_color town_type) town_gdf))]).
Proof.
  split; [| split].
  - unfold town_color.
    destruct (dict_get (COUNTYNAME f ++ TOWNNAME f)%string town_type) as [t |].
    + destruct (dict_get t colormap) as [c |] eqn:E.
      * split.
        -- intros Hc. exfalso. exact (colormap_not_transparent t c E Hc).
        -- intros [H | [t' [H1 H2]]]; [discriminate H |].
           injection H1 as <-. congruence.
      * split; [intros _; right; exists t; auto | reflexivity].
    + split; [intros _; left; reflexivity | reflexivity].
  - intros t c Ht Hc. unfold town_color. rewrite Ht, Hc. reflexivity.
  - intros env cv fig i a w w' u H.
    unfold subsidy_panel, bbox_of, get_area, get_county_gpd, get_town_gpd, draw_on,
      child, draw, of_option, bind, ret, raise in H.
    destruct (dict_get a AREA_RANGE) as [ar |]; [| discriminate H].
    destruct (read_county env _) as [cg |]; [| discriminate H].
    destruct (read_town env _) as [tg |]; [| discriminate H].
    destruct (nth_error (Layout.child_axes cv) i); [| discriminate H].
    destruct (draw_fails env (BoundaryPlot i cg "black" 0.8)); [discriminate H |].
    destruct (draw_fails env (BoundaryPlot i tg "gray" 0.5)); [discriminate H |].
    destruct (draw_fails env (FillColors i tg _)); [discriminate H |].
    injection H as <- _. exists cg, tg. simpl. rewrite <- !app_assoc. reflexivity.
Qed.

End SubsidyFacts.

(* ================================================================== *)
(** * Further properties of the service and the renderers *)

Module ServiceFacts.

Import Graph App.
Open Scope nat_scope.

(** A computation that leaves [request_counter] as it found it. *)
Definition counter_pres {A} (m : M A) : Prop := forall w, counter (fst (m w)) = counter w.

Lemma ret_cpres {A} (a : A) : counter_pres (ret a).
Proof. intros w. reflexivity. Qed.

Lemma raise_cpres {A} (e : Exn) : counter_pres (@raise A e).
Proof. intros w. reflexivity. Qed.

Lemma bind_cpres {A B} (m : M A) (k : A -> M B) :
  counter_pres m -> (forall a, counter_pres (k a)) -> counter_pres (bind m k).
Proof.
  intros Hm Hk w. unfold bind. specialize (Hm w).
  destruct (m w) as [w1 [a | e]]; simpl in *; [rewrite Hk |]; exact Hm.
Qed.

Lemma of_option_cpres {A} e (o : option A) : counter_pres (of_option e o).
Proof. destruct o; intros w; reflexivity. Qed.

Lemma lift_res_cpres {A} (r : res A) : counter_pres (lift_res r).
Proof. destruct r; intros w; reflexivity. Qed.

Lemma for_each_cpres {A} (l : list A) (f : A -> M unit) :
  (forall x, counter_pres (f x)) -> counter_pres (for_each l f).
Proof.
  intros Hf. induction l as [| x l IH]; simpl; [apply ret_cpres |].
  apply bind_cpres; [apply Hf | intros _; exact IH].
Qed.

Lemma subplots_cpres : counter_pres subplots.
Proof. intros w. reflexivity. Qed.

Section WithEnv.

Variable env : Env.

Lemma draw_cpres fig c : counter_pres (draw env fig c).
Proof. intros w. unfold draw. destruct (draw_fails env c); reflexivity. Qed.

Create HintDb counter.
#[local] Hint Resolve ret_cpres raise_cpres of_option_cpres lift_res_cpres draw_cpres
  subplots_cpres : counter.

Ltac cpres :=
  repeat first
    [ match goal with
      | |- counter_pres (bind _ _) => apply bind_cpres
      | |- counter_pres (for_each _ _) => apply for_each_cpres
      | |- counter_pres (if ?b then _ else _) => destruct b
      | |- counter_pres (match ?x with _ => _ end) => destruct x
      end
    | solve [eauto with counter]
    | match goal with |- forall _, _ => intros ? end ].

Ltac unfold_renderers :=
  unfold plot_hist2d, plot_dot, plot_bubble, plot_boundary, plot_boundary_with_subsidy,
    plot_choropleth, gp_base, boundary_panel, subsidy_panel, choropleth_panel,
    hist2d_panel, dot_panel, bubble_panel, hist2d_on, scatter_on, draw_on, child, bbox_of,
    get_area, get_county_gpd, get_town_gpd, merge_gdf_and_df, series_min, series_max,
    _colorbar.

(** No renderer touches [request_counter]. *)
Lemma renderers_cpres :
  counter_pres (plot_boundary env) /\ counter_pres (plot_boundary_with_subsidy env) /\
  (forall p, counter_pres (plot_choropleth env p)) /\
  (forall p, counter_pres (plot_hist2d env p)) /\
  (forall p, counter_pres (plot_dot env p)) /\
  (forall p, counter_pres (plot_bubble env p)).
Proof.
  repeat split; unfold_renderers; cpres.
Qed.

Lemma cleanup_step w :
  exists w1, cleanup_memory_if_needed w = (w1, Ok tt) /\
    counter w1 = (if Nat.leb CLEANUP_INTERVAL (S (counter w)) then 0 else S (counter w)) /\
    (Nat.leb CLEANUP_INTERVAL (S (counter w)) = true -> live w1 = []).
Proof.
  unfold cleanup_memory_if_needed, cleanup_memory, bind, get_counter, set_counter,
    close_all, ret.
  destruct (Nat.leb CLEANUP_INTERVAL (S (counter w))); eexists;
    (split; [reflexivity | split; [reflexivity | intros H; try discriminate H; reflexivity]]).
Qed.

Lemma step_mod c :
  c < CLEANUP_INTERVAL ->
  (if Nat.leb CLEANUP_INTERVAL (S c) then 0 else S c) = S c mod CLEANUP_INTERVAL.
Proof.
  unfold CLEANUP_INTERVAL. intros H. destruct (Nat.leb_spec 50 (S c)) as [H1 | H1].
  - assert (E : S c = 50) by lia. rewrite E. reflexivity.
  - rewrite Nat.mod_small; lia.
Qed.

Lemma fig_to_image_cpres fig : counter_pres (fig_to_image env fig).
Proof.
  intros w. unfold fig_to_image, try_finally, savefig, bind, ret, close.
  destruct (savefig_fails env fig); reflexivity.
Qed.

Lemma handle_cpres pf w :
  counter_pres pf ->
  counter (fst (handle_plot_request env pf w)) = counter (fst (cleanup_memory_if_needed w)).
Proof.
  intros Hpf. destruct (cleanup_step w) as [w1 [Hc _]]. rewrite Hc. simpl fst.
  unfold handle_plot_request, try_except. unfold bind at 1. rewrite Hc.
  unfold bind at 1. pose proof (Hpf w1) as Hp.
  destruct (pf w1) as [w2 [[fig cv] | e]]; simpl in Hp.
  - unfold bind at 1. pose proof (fig_to_image_cpres fig w2) as Hf.
    destruct (fig_to_image env fig w2) as [w3 [img | e]]; simpl in *; congruence.
  - exact Hp.
Qed.

Lemma serve_counter_helper r w :
  counter w < CLEANUP_INTERVAL ->
  counter (fst (serve env r w)) =
    match r with RCleanup => 0 | _ => S (counter w) mod CLEANUP_INTERVAL end.
Proof.
  intros H. destruct renderers_cpres as (H1 & H2 & H3 & H4 & H5 & H6).
  destruct (cleanup_step w) as [w1 [Hc [Hcnt _]]].
  destruct r; simpl serve; try reflexivity; rewrite handle_cpres by auto;
    rewrite Hc; simpl fst; rewrite Hcnt; apply step_mod; exact H.
Qed.

(** X1: [request_counter] stays below [CLEANUP_INTERVAL]: a plot request
    increments it modulo 50 (the 50th request resets it to 0, whether the
    plot succeeds or not), and [/cleanup] resets it to 0. *)
Theorem serve_counter_step r w :
  counter w < CLEANUP_INTERVAL ->
  counter (fst (serve env r w)) =
    match r with RCleanup => 0 | _ => S (counter w) mod CLEANUP_INTERVAL end.
Proof. exact (serve_counter_helper r w). Qed.

(** X2: over a run of plot requests with no [/cleanup] in between, the
    counter after the [k]-th request is [(c + k) mod 50], [c] the counter
    before the run: cleanup fires exactly on every 50th request. *)
Theorem serve_all_counter rs w :
  counter w < CLEANUP_INTERVAL -> Forall (fun r => r <> RCleanup) rs ->
  map counter (serve_all env rs w) =
    map (fun k => (counter w + k) mod CLEANUP_INTERVAL) (seq 1 (length rs)).
Proof.
  revert w. induction rs as [| r rs IH]; intros w Hc Hall; [reflexivity |].
  inversion Hall as [| r' rs' Hr Hrs]; subst.
  assert (Hs : counter (fst (serve env r w)) = S (counter w) mod CLEANUP_INTERVAL).
  { rewrite serve_counter_helper by exact Hc. destruct r; try reflexivity. contradiction. }
  simpl. rewrite Hs. f_equal.
  - rewrite Nat.add_1_r. reflexivity.
  - rewrite IH; [| rewrite Hs; apply Nat.mod_upper_bound; discriminate | exact Hrs].
    rewrite Hs, <- (seq_shift _ 1), map_map. apply map_ext. intros k.
    rewrite Nat.Div0.add_mod_idemp_l, Nat.add_succ_r. reflexivity.
Qed.

Lemma handle_after_clean pf w w1 :
  LifecycleFacts.alloc1 pf -> cleanup_memory_if_needed w = (w1, Ok tt) -> live w1 = [] ->
  live (fst (handle_plot_request env pf w)) = [].
Proof.
  intros Hpf Hc Hw1.
  unfold handle_plot_request, try_except. unfold bind at 1. rewrite Hc.
  unfold bind at 1. destruct (pf w1) as [w2 [[fig cv] | e]] eqn:Hp.
  - pose proof (Hpf _ _ _ _ Hp) as Hw2. rewrite Hw1 in Hw2.
    unfold fig_to_image, try_finally, savefig, bind, close, ret.
    destruct (savefig_fails env fig); simpl; [reflexivity |].
    rewrite Hw2. simpl. rewrite Nat.eqb_refl. reflexivity.
  - reflexivity.
Qed.

(** X3: the plot request that brings the counter to [CLEANUP_INTERVAL]
    closes every open figure, also those left open before it: after it,
    whatever its outcome, no figure is open. *)
Theorem cleanup_interval_closes_all r w :
  r <> RCleanup -> CLEANUP_INTERVAL <= S (counter w) ->
  live (fst (serve env r w)) = [].
Proof.
  intros Hr Hle. destruct (cleanup_step w) as [w1 [Hc [_ Hl]]].
  specialize (Hl (proj2 (Nat.leb_le _ _) Hle)).
  destruct r; simpl serve; try contradiction; eapply handle_after_clean; eauto;
    eauto using LifecycleFacts.plot_boundary_alloc1,
      LifecycleFacts.plot_boundary_with_subsidy_alloc1, LifecycleFacts.plot_choropleth_alloc1,
      LifecycleFacts.plot_hist2d_alloc1, LifecycleFacts.plot_dot_alloc1,
      LifecycleFacts.plot_bubble_alloc1.
Qed.

(** X4: whatever the plot function does, [handle_plot_request] either
    answers with an image, or raises [HTTPException] 500 with every figure
    closed; no other exception leaves it. *)
Theorem handle_plot_request_outcome (pf : M (nat * Layout.Canvas)) (w : World) :
  (exists img, snd (handle_plot_request env pf w) = Ok (StreamingResponse img)) \/
  (snd (handle_plot_request env pf w) = Err (HTTPException 500) /\
   live (fst (handle_plot_request env pf w)) = []).
Proof.
  unfold handle_plot_request, try_except, bind, ret, raise, cleanup_memory, close_all.
  destruct (cleanup_memory_if_needed w) as [w1 [u | e]].
  - destruct (pf w1) as [w2 [[fig cv] | e]].
    + destruct (fig_to_image env fig w2) as [w3 [img | e]].
      * left. exists img. reflexivity.
      * right. split; reflexivity.
    + right. split; reflexivity.
  - right. split; reflexivity.
Qed.

End WithEnv.

Definition w49 : World := mkWorld [] 0 49 [].

(** The 50th request fails (three [x] against two [y]) and still resets
    the counter to 0; a successful request from 0 gives 1; [/cleanup] at
    49 gives 0. *)
Lemma serve_counter_step_witness :
  counter w49 < CLEANUP_INTERVAL /\
  snd (serve LifecycleFacts.quiet_env (RDot ValidationFacts.dot_3_2) w49) =
    Err (HTTPException 500) /\
  counter (fst (serve LifecycleFacts.quiet_env (RDot ValidationFacts.dot_3_2) w49)) = 0 /\
  snd (serve LifecycleFacts.quiet_env RBoundary ValidationFacts.w0) =
    Ok (StreamingResponse 0) /\
  counter (fst (serve LifecycleFacts.quiet_env RBoundary ValidationFacts.w0)) = 1 /\
  counter (fst (serve LifecycleFacts.quiet_env RCleanup w49)) = 0.
Proof.
  assert (H49 : counter w49 < CLEANUP_INTERVAL) by (vm_compute; lia).
  assert (H0 : counter ValidationFacts.w0 < CLEANUP_INTERVAL) by (vm_compute; lia).
  split; [exact H49 |]. split; [vm_compute; reflexivity |].
  split; [rewrite (serve_counter_step LifecycleFacts.quiet_env
                     (RDot ValidationFacts.dot_3_2) w49 H49); reflexivity |].
  split; [vm_compute; reflexivity |].
  split; [rewrite (serve_counter_step LifecycleFacts.quiet_env RBoundary
                     ValidationFacts.w0 H0); reflexivity |].
  rewrite (serve_counter_step LifecycleFacts.quiet_env RCleanup w49 H49). reflexivity.
Defined.

Lemma serve_all_counter_witness :
  let rs := [RBoundary; RChoropleth ChoroplethFacts.p_taipei; RBoundaryWithSubsidy] in
  (counter w49 < CLEANUP_INTERVAL) /\ Forall (fun r => r <> RCleanup) rs /\
  map counter (serve_all LifecycleFacts.quiet_env rs w49) =
    map (fun k => (counter w49 + k) mod CLEANUP_INTERVAL) (seq 1 (length rs)).
Proof.
  intros rs.
  assert (H1 : counter w49 < CLEANUP_INTERVAL) by (vm_compute; lia).
  assert (H2 : Forall (fun r => r <> RCleanup) rs) by (repeat constructor; discriminate).
  split; [exact H1 | split; [exact H2 |]].
  exact (serve_all_counter LifecycleFacts.quiet_env rs w49 H1 H2).
Defined.

(** Two figures left open by earlier code, and the counter at 49. *)
Definition w_leaky : World := mkWorld [3; 5] 6 49 [].

Lemma cleanup_interval_closes_all_witness :
  RBoundary <> RCleanup /\ CLEANUP_INTERVAL <= S (counter w_leaky) /\
  live (fst (serve LifecycleFacts.quiet_env RBoundary w_leaky)) = [].
Proof.
  assert (H1 : RBoundary <> RCleanup) by discriminate.
  assert (H2 : CLEANUP_INTERVAL <= S (counter w_leaky)) by (vm_compute; lia).
  split; [exact H1 | split; [exact H2 |]].
  exact (cleanup_interval_closes_all LifecycleFacts.quiet_env RBoundary w_leaky H1 H2).
Defined.

End ServiceFacts.

Module RendererFacts.

Import Graph App.
Open Scope list_scope.

(** A computation that, on every exit path, leaves one more figure open:
    the one numbered [next_fig]. *)
Definition opens_one {A} (m : M A) : Prop :=
  forall w, live (fst (m w)) = next_fig w :: live w.

Lemma bind_opens_one {A B} (m : M A) (k : A -> M B) :
  opens_one m -> (forall a, LifecycleFacts.live_pres (k a)) -> opens_one (bind m k).
Proof.
  intros Hm Hk w. unfold bind. specialize (Hm w).
  destruct (m w) as [w1 [a | e]]; simpl in *; [rewrite Hk |]; exact Hm.
Qed.

Lemma gp_base_opens_one : opens_one gp_base.
Proof.
  intros w. cbv [gp_base bind subplots of_option ret raise].
  destruct Layout.base; reflexivity.
Qed.

Ltac lpres env :=
  repeat first
    [ match goal with
      | |- LifecycleFacts.live_pres (bind _ _) => apply LifecycleFacts.bind_pres
      | |- LifecycleFacts.live_pres (for_each _ _) => apply LifecycleFacts.for_each_pres
      | |- LifecycleFacts.live_pres (match ?x with _ => _ end) => destruct x
      end
    | apply LifecycleFacts.ret_pres
    | apply LifecycleFacts.draw_pres
    | apply (LifecycleFacts.boundary_panel_pres env)
    | apply (LifecycleFacts.choropleth_panel_pres env)
    | apply (LifecycleFacts.hist2d_panel_pres env)
    | apply (LifecycleFacts.dot_panel_pres env)
    | apply (LifecycleFacts.bubble_panel_pres env)
    | progress unfold series_min, series_max, _colorbar
    | apply LifecycleFacts.lift_res_pres
    | match goal with |- forall _, _ => intros ? end ].

Lemma plot_boundary_opens_one env : opens_one (plot_boundary env).
Proof.
  unfold plot_boundary. apply bind_opens_one; [exact gp_base_opens_one |]. lpres env.
Qed.

(** X5: [plot_boundary], [plot_choropleth], [plot_hist2d], [plot_dot] and
    [plot_bubble] create one figure and never close it, neither when they
    return nor when they raise: after each call exactly one more figure is
    open.  Releasing it is up to the caller. *)
Theorem renderers_leave_figure_open (env : Env) (w : World) :
  live (fst (plot_boundary env w)) = next_fig w :: live w /\
  (forall p, live (fst (plot_choropleth env p w)) = next_fig w :: live w) /\
  (forall p, live (fst (plot_hist2d env p w)) = next_fig w :: live w) /\
  (forall p, live (fst (plot_dot env p w)) = next_fig w :: live w) /\
  (forall p, live (fst (plot_bubble env p w)) = next_fig w :: live w).
Proof.
  split; [apply plot_boundary_opens_one |].
  split; [intros p; revert w; unfold plot_choropleth;
          apply bind_opens_one; [exact gp_base_opens_one | lpres env] |].
  split; [intros p; revert w; unfold plot_hist2d;
          apply bind_opens_one; [apply plot_boundary_opens_one | lpres env] |].
  split; [intros p; revert w; unfold plot_dot;
          apply bind_opens_one; [apply plot_boundary_opens_one | lpres env] |].
  intros p; revert w; unfold plot_bubble.
  apply bind_opens_one; [apply plot_boundary_opens_one | lpres env].
Qed.

(** X6: [plot_boundary_with_subsidy] reads the classification JSON before
    it creates a figure: when the file cannot be read it raises [OSError]
    with no figure created and nothing drawn, the state unchanged. *)
Theorem subsidy_json_read_first (env : Env) (w : World) :
  read_town_type env = None -> plot_boundary_with_subsidy env w = (w, Err OSError).
Proof.
  intros H. unfold plot_boundary_with_subsidy, bind, of_option, raise. rewrite H.
  reflexivity.
Qed.

(** The bbox [(min_x, min_y, max_x, max_y)] the renderers pass for a
    region, and the frames the reads give. *)
Definition region_bbox (a : string) : Q * Q * Q * Q :=
  match dict_get a AREA_RANGE with
  | Some ar => let b := bounds ar in (min_x b, min_y b, max_x b, max_y b)
  | None => (0, 0, 0, 0)%Q
  end.

Definition county_at (env : Env) (a : string) : list Feature :=
  match read_county env (region_bbox a) with Some l => l | None => [] end.
Definition town_at (env : Env) (a : string) : list Feature :=
  match read_town env (region_bbox a) with Some l => l | None => [] end.

(** A loop whose body, when it returns, appended exactly [g x] and
    established [P x]. *)
Lemma for_each_appends_list {A} (l : list A) (f : A -> M unit)
    (g : A -> list (nat * Cmd)) (P : A -> Prop) :
  (forall x w w' u, f x w = (w', Ok u) -> w' = DensityFacts.append_log w (g x) /\ P x) ->
  forall w w' u, for_each l f w = (w', Ok u) ->
  w' = DensityFacts.append_log w (flat_map g l) /\ Forall P l.
Proof.
  intros Hf. induction l as [| x l IH]; intros w w' u H; simpl in H.
  - injection H as <- _. destruct w. unfold DensityFacts.append_log. simpl.
    rewrite app_nil_r. auto.
  - unfold bind in H. destruct (f x w) as [w1 [v | e]] eqn:E; [| discriminate].
    apply Hf in E as [-> Hx]. apply IH in H as [-> Hl]. split; [| constructor; auto].
    unfold DensityFacts.append_log. simpl. rewrite app_assoc. reflexivity.
Qed.

Lemma flat_map_single {A B} (h : A -> B) (l : list A) :
  flat_map (fun x => [h x]) l = map h l.
Proof. induction l as [| x l IH]; simpl; [reflexivity | rewrite IH; reflexivity]. Qed.

Definition county_read_ok (env : Env) (ia : nat * string) : Prop :=
  read_county env (region_bbox (snd ia)) = Some (county_at env (snd ia)).

Lemma boundary_panel_appends env cv fig i a w w' u :
  boundary_panel env cv fig (i, a) w = (w', Ok u) ->
  w' = DensityFacts.append_log w [(fig, BoundaryPlot i (county_at env a) "black" 0.8)] /\
  county_read_ok env (i, a).
Proof.
  unfold boundary_panel, bbox_of, get_area, get_county_gpd, draw_on, child, draw,
    of_option, bind, ret, raise, county_read_ok, county_at, region_bbox.
  change (snd (i, a)) with a.
  destruct (dict_get a AREA_RANGE) as [ar |]; [| discriminate].
  destruct (read_county env _) as [g |]; [| discriminate].
  destruct (nth_error (Layout.child_axes cv) i); [| discriminate].
  destruct (draw_fails env _); [discriminate |].
  intros H. injection H as <- _. auto.
Qed.

Lemma plot_boundary_log env w w' fig cv :
  plot_boundary env w = (w', Ok (fig, cv)) ->
  exists w1, w1 = mkWorld (fig :: live w) (S fig) (counter w) (log w) /\
    fig = next_fig w /\ Layout.base = Some cv /\
    for_each area_list (boundary_panel env cv fig) w1 = (w', Ok tt).
Proof.
  unfold plot_boundary, gp_base, bind, subplots, of_option, ret, raise.
  destruct Layout.base as [c |]; [| discriminate].
  destruct (for_each _ _ _) as [w2 [[] | e]] eqn:E; [| discriminate].
  intros H. injection H as <- <- <-. eexists. eauto.
Qed.

(** X7: a successful [plot_boundary] draws on figure number [next_fig],
    for each panel [i] of [area_list] in order, the boundary of the county
    frame read for that region's bbox [(min_x, min_y, max_x, max_y)], in
    black with line width 0.8, and nothing else. *)
Theorem boundary_draws_each_panel (env : Env) (w w' : World) (fig : nat)
    (cv : Layout.Canvas) :
  plot_boundary env w = (w', Ok (fig, cv)) ->
  fig = next_fig w /\
  log w' = log w ++
    map (fun ia => (fig, BoundaryPlot (fst ia) (county_at env (snd ia)) "black" 0.8))
      area_list /\
  Forall (county_read_ok env) area_list.
Proof.
  intros H. destruct (plot_boundary_log _ _ _ _ _ H) as [w1 [-> [Hf [_ Hl]]]].
  apply (for_each_appends_list area_list _
           (fun ia => [(fig, BoundaryPlot (fst ia) (county_at env (snd ia)) "black" 0.8)])
           (county_read_ok env)) in Hl as [-> HP].
  - split; [exact Hf | split; [| exact HP]]. unfold DensityFacts.append_log. cbn [log]. rewrite flat_map_single. reflexivity.
  - intros [i a] w2 w3 u Hp. exact (boundary_panel_appends env cv fig i a w2 w3 u Hp).
Qed.

Lemma dot_panel_appends env p cv fig i a w w' u :
  dot_panel env p cv fig (i, a) w = (w', Ok u) ->
  w' = DensityFacts.append_log w
         [(fig, Scatter i (Dot.x p) (Dot.y p) (SScalar (Dot.size p)) (CSingle (Dot.color p))
                  (Dot.alpha p) false)] /\ True.
Proof.
  unfold dot_panel, scatter_on, child, draw, of_option, bind, ret, raise.
  destruct (nth_error (Layout.child_axes cv) i); [| discriminate].
  destruct (scatter_error _ _ _ _); [discriminate |].
  destruct (draw_fails env _); [discriminate |].
  intros H. injection H as <- _. auto.
Qed.

Lemma bubble_panel_appends env p cv fig i a w w' u :
  bubble_panel env p cv fig (i, a) w = (w', Ok u) ->
  w' = DensityFacts.append_log w
         [(fig, Scatter i (Bubble.x p) (Bubble.y p) (SArray (Bubble.size p))
                  (CList (Bubble.color p)) (Bubble.alpha p) true)] /\ True.
Proof.
  unfold bubble_panel, scatter_on, child, draw, of_option, bind, ret, raise.
  destruct (nth_error (Layout.child_axes cv) i); [| discriminate].
  destruct (scatter_error _ _ _ _); [discriminate |].
  destruct (draw_fails env _); [discriminate |].
  intros H. injection H as <- _. auto.
Qed.

Lemma after_boundary {A} env (k : nat -> Layout.Canvas -> M A) w w' r :
  bind (plot_boundary env) (fun x => match x with (fig, cv) => k fig cv end) w = (w', r) ->
  (exists wb fig cv, plot_boundary env w = (wb, Ok (fig, cv)) /\ k fig cv wb = (w', r)) \/
  (exists e, plot_boundary env w = (w', Err e) /\ r = Err e).
Proof.
  unfold bind at 1. destruct (plot_boundary env w) as [wb [[fig cv] | e]].
  - intros H. left. eauto.
  - intros H. injection H as <- <-. right. eauto.
Qed.

(** X8: a successful [plot_dot] (resp. [plot_bubble]) draws, after the
    boundary map, one [scatter] on each panel [i] of [area_list] in order,
    each with all the request's points (not only those within the
    region), the request's size, colour and alpha, and with a black edge
    for the bubble map only. *)
Theorem scatter_on_each_panel (env : Env) (w w' : World) (fig : nat) (cv : Layout.Canvas) :
  (forall p : DotParams, plot_dot env p w = (w', Ok (fig, cv)) ->
     exists wb, plot_boundary env w = (wb, Ok (fig, cv)) /\
       log w' = log wb ++
         map (fun ia => (fig, Scatter (fst ia) (Dot.x p) (Dot.y p) (SScalar (Dot.size p))
                                (CSingle (Dot.color p)) (Dot.alpha p) false)) area_list) /\
  (forall p : BubbleParams, plot_bubble env p w = (w', Ok (fig, cv)) ->
     exists wb, plot_boundary env w = (wb, Ok (fig, cv)) /\
       log w' = log wb ++
         map (fun ia => (fig, Scatter (fst ia) (Bubble.x p) (Bubble.y p)
                                (SArray (Bubble.size p)) (CList (Bubble.color p))
                                (Bubble.alpha p) true)) area_list).
Proof.
  split.
  - intros p H. unfold plot_dot in H. apply after_boundary in H.
    destruct H as [[wb [fig1 [cv1 [Hb Hk]]]] | [e [_ He]]]; [| discriminate He].
    unfold bind in Hk.
    destruct (for_each area_list (dot_panel env p cv1 fig1) wb) as [w2 [u | e]] eqn:El;
      [| discriminate Hk].
    injection Hk as <- <- <-. exists wb. split; [exact Hb |].
    eapply for_each_appends_list with (P := fun _ => True) in El as [-> _].
    + unfold DensityFacts.append_log. cbn [log]. rewrite flat_map_single. reflexivity.
    + intros [i a] w3 w4 u' Hp. exact (dot_panel_appends env p cv1 fig1 i a w3 w4 u' Hp).
  - intros p H. unfold plot_bubble in H. apply after_boundary in H.
    destruct H as [[wb [fig1 [cv1 [Hb Hk]]]] | [e [_ He]]]; [| discriminate He].
    unfold bind in Hk.
    destruct (for_each area_list (bubble_panel env p cv1 fig1) wb) as [w2 [u | e]] eqn:El;
      [| discriminate Hk].
    injection Hk as <- <- <-. exists wb. split; [exact Hb |].
    eapply for_each_appends_list with (P := fun _ => True) in El as [-> _].
    + unfold DensityFacts.append_log. cbn [log]. rewrite flat_map_single. reflexivity.
    + intros [i a] w3 w4 u' Hp.
      exact (bubble_panel_appends env p cv1 fig1 i a w3 w4 u' Hp).
Qed.

Lemma subsidy_panel_appends env tt cv fig i a w w' u :
  subsidy_panel env tt cv fig (i, a) w = (w', Ok u) ->
  w' = DensityFacts.append_log w
         [(fig, BoundaryPlot i (county_at env a) "black" 0.8);
          (fig, BoundaryPlot i (town_at env a) "gray" 0.5);
          (fig, FillColors i (town_at env a) (map (town_color tt) (town_at env a)))] /\ True.
Proof.
  unfold subsidy_panel, bbox_of, get_area, get_county_gpd, get_town_gpd, draw_on, child,
    draw, of_option, bind, ret, raise, county_at, town_at, region_bbox.
  destruct (dict_get a AREA_RANGE) as [ar |]; [| discriminate].
  destruct (read_county env _) as [cg |]; [| discriminate].
  destruct (read_town env _) as [tg |]; [| discriminate].
  destruct (nth_error (Layout.child_axes cv) i); [| discriminate].
  destruct (draw_fails env (BoundaryPlot i cg "black" 0.8)); [discriminate |].
  destruct (draw_fails env (BoundaryPlot i tg "gray" 0.5)); [discriminate |].
  destruct (draw_fails env (FillColors i tg _)); [discriminate |].
  intros H. injection H as <- _. split; [| exact I].
  unfold DensityFacts.append_log. simpl. rewrite <- !app_assoc. reflexivity.
Qed.

(** X9: a successful [plot_boundary_with_subsidy] has read the
    classification map [town_type]; on figure number [next_fig] it draws,
    panel by panel in the order of [area_list], the county boundaries, the
    town boundaries and the town fills of that region's bbox, and finally
    one legend with the fixed four entries, after all panels. *)
Theorem subsidy_panels_then_legend (env : Env) (w w' : World) (fig : nat)
    (cv : Layout.Canvas) :
  plot_boundary_with_subsidy env w = (w', Ok (fig, cv)) ->
  exists town_type,
    read_town_type env = Some town_type /\ fig = next_fig w /\
    log w' = log w ++
      flat_map (fun ia =>
        [(fig, BoundaryPlot (fst ia) (county_at env (snd ia)) "black" 0.8);
         (fig, BoundaryPlot (fst ia) (town_at env (snd ia)) "gray" 0.5);
         (fig, FillColors (fst ia) (town_at env (snd ia))
                 (map (town_color town_type) (town_at env (snd ia))))]) area_list ++
      [(fig, Legend subsidy_legend)].
Proof.
  unfold plot_boundary_with_subsidy, gp_base, bind, of_option, subplots, ret, raise, draw.
  destruct (read_town_type env) as [tt |]; [| discriminate].
  destruct Layout.base as [c |]; [| discriminate].
  destruct (for_each _ _ _) as [w2 [[] | e]] eqn:El; [| discriminate].
  destruct (draw_fails env _); [discriminate |].
  intros H. injection H as <- <- _. exists tt. split; [reflexivity | split; [reflexivity |]].
  eapply for_each_appends_list with (P := fun _ => True) in El as [-> _].
  - unfold DensityFacts.append_log. cbn [log]. rewrite <- app_assoc. reflexivity.
  - intros [i a] w3 w4 u Hp. exact (subsidy_panel_appends env tt c _ i a w3 w4 u Hp).
Qed.

Lemma dict_taiwan : dict_get "taiwan" AREA_RANGE = Some ChoroplethFacts.taiwan_area.
Proof. vm_compute. reflexivity. Qed.

(** X10: nothing checks the lengths of [plot_hist2d]'s coordinates
    either: when [plot_boundary] has completed, [x] and [y] of different
    lengths make the first [hist2d] call raise [ValueError], in the state
    the boundary map left. *)
Theorem hist2d_mismatch_fails_after_boundary (env : Env) (w w1 : World) (fig : nat)
    (cv : Layout.Canvas) (p : Hist2DParams) :
  plot_boundary env w = (w1, Ok (fig, cv)) ->
  length (Hist2D.x p) <> length (Hist2D.y p) ->
  plot_hist2d env p w = (w1, Err (ValueError "x and y must have the same length.")).
Proof.
  intros Hb Hlen. pose proof (ValidationFacts.plot_boundary_canvas _ _ _ _ _ Hb) as Hcv.
  destruct (ValidationFacts.first_child_exists cv Hcv) as [ax Hax].
  unfold plot_hist2d, bind at 1. rewrite Hb. rewrite ValidationFacts.area_list_head.
  simpl for_each.
  unfold bind, hist2d_panel, hist2d_on, get_area, child, of_option, ret, raise.
  rewrite dict_taiwan, Hax. apply Nat.eqb_neq in Hlen. rewrite Hlen. reflexivity.
Qed.



(** The state [GeoPlot.base] leaves. *)
Definition after_base (w : World) : World :=
  mkWorld (next_fig w :: live w) (S (next_fig w)) (counter w) (log w).

Lemma gp_base_eq w : gp_base w = (after_base w, Ok (next_fig w, ValidationFacts.cv_base)).
Proof.
  cbv [gp_base bind subplots of_option ret raise]. unfold ValidationFacts.cv_base.
  destruct Layout.base eqn:E; [reflexivity |]. vm_compute in E. discriminate E.
Qed.

Lemma merge_res_missing_right gdf df l r k :
  find (fun n => negb (valid_feature_column n)) l = None ->
  find (fun n => negb (has_column df n)) r = Some k ->
  merge_res gdf df l r = Err (KeyError k).
Proof. intros Hl Hr. unfold merge_res. rewrite Hl, Hr. reflexivity. Qed.

Lemma choropleth_left_on_valid p :
  find (fun n => negb (valid_feature_column n)) (choropleth_left_on p) = None.
Proof. unfold choropleth_left_on. destruct (is_town p); reflexivity. Qed.

Lemma for_each_cons_err {A} (x : A) l f w w' e :
  f x w = (w', Err e) -> for_each (x :: l) f w = (w', Err e).
Proof. intros H. simpl. unfold bind. rewrite H. reflexivity. Qed.

Lemma bind_err {A B} (m : M A) (k : A -> M B) w w' e :
  m w = (w', Err e) -> bind m k w = (w', Err e).
Proof. intros H. unfold bind. rewrite H. reflexivity. Qed.

(** X12: when the data lacks a join key column ("county", or for level
    "town" also "town"), [plot_choropleth] raises [KeyError] for the first
    missing key at the first panel's merge; in particular an empty data
    list is an error, not an empty map.  (The first panel's geometry read
    is assumed to succeed.) *)
Theorem choropleth_missing_key_fails (env : Env) (p : ChoroplethParams) (w : World)
    (k : string) (feats : list Feature) :
  find (fun n => negb (has_column (Choropleth.data p) n)) (choropleth_right_on p) = Some k ->
  (if is_town p then read_town env else read_county env) (region_bbox "taiwan") = Some feats ->
  snd (plot_choropleth env p w) = Err (KeyError k).
Proof.
  intros Hk Hread.
  assert (Hp : choropleth_panel env p ValidationFacts.cv_base (next_fig w) (0%nat, "taiwan")
                 (after_base w) = (after_base w, Err (KeyError k))).
  { unfold region_bbox in Hread. rewrite dict_taiwan in Hread. cbv beta iota zeta in Hread.
    unfold choropleth_panel, bbox_of, get_area, get_county_gpd, get_town_gpd,
      merge_gdf_and_df, lift_res, of_option, bind, ret, raise.
    cbv beta iota zeta. rewrite dict_taiwan. cbv beta iota zeta.
    destruct (is_town p); rewrite Hread;
      rewrite (merge_res_missing_right feats _ _ _ k (choropleth_left_on_valid p) Hk);
      reflexivity. }
  unfold plot_choropleth. unfold bind at 1. rewrite gp_base_eq. cbv beta iota.
  rewrite ValidationFacts.area_list_head.
  rewrite (bind_err _ _ _ _ _ (for_each_cons_err _ _ _ _ _ _ Hp)). reflexivity.
Qed.

Lemma merge_res_numeric_right f gdf df l r k :
  find (fun n => negb (valid_feature_column n)) l = None ->
  find (fun n => negb (has_column df n)) r = None ->
  find (numeric_column df) r = Some k ->
  merge_res (f :: gdf) df l r =
    Err (ValueError "You are trying to merge on object and numeric columns").
Proof. intros Hl Hr Hk. unfold merge_res. rewrite Hl, Hr, Hk. reflexivity. Qed.

(** X18: when every join key column is present but one of them holds
    numbers and no string, and the first panel's geometry read gives at
    least one feature, [plot_choropleth] raises pandas' [ValueError] for
    merging an [object] column with a numeric one at the first panel: a
    numeric "county" column is an error, not an empty join. *)
Theorem choropleth_numeric_key_fails (env : Env) (p : ChoroplethParams) (w : World)
    (k : string) (f : Feature) (feats : list Feature) :
  find (fun n => negb (has_column (Choropleth.data p) n)) (choropleth_right_on p) = None ->
  find (numeric_column (Choropleth.data p)) (choropleth_right_on p) = Some k ->
  (if is_town p then read_town env else read_county env) (region_bbox "taiwan")
    = Some (f :: feats) ->
  snd (plot_choropleth env p w) =
    Err (ValueError "You are trying to merge on object and numeric columns").
Proof.
  intros Hr Hk Hread.
  assert (Hp : choropleth_panel env p ValidationFacts.cv_base (next_fig w) (0%nat, "taiwan")
                 (after_base w) = (after_base w,
                   Err (ValueError "You are trying to merge on object and numeric columns"))).
  { unfold region_bbox in Hread. rewrite dict_taiwan in Hread. cbv beta iota zeta in Hread.
    unfold choropleth_panel, bbox_of, get_area, get_county_gpd, get_town_gpd,
      merge_gdf_and_df, lift_res, of_option, bind, ret, raise.
    cbv beta iota zeta. rewrite dict_taiwan. cbv beta iota zeta.
    destruct (is_town p); rewrite Hread;
      rewrite (merge_res_numeric_right f feats _ _ _ k (choropleth_left_on_valid p) Hr Hk);
      reflexivity. }
  unfold plot_choropleth. unfold bind at 1. rewrite gp_base_eq. cbv beta iota.
  rewrite ValidationFacts.area_list_head.
  rewrite (bind_err _ _ _ _ _ (for_each_cons_err _ _ _ _ _ _ Hp)). reflexivity.
Qed.

(** Concrete inputs for the witnesses. *)
Definition env_no_json : Env :=
  mkEnv (fun _ => Some []) (fun _ => Some []) None (fun _ => false) (fun _ => false)
        LifecycleFacts.digits_float.

Definition zhongzheng : Feature := mkFeature "臺北市" "中正區" 3.

Definition env_sub : Env :=
  mkEnv (fun _ => Some [ChoroplethFacts.taipei]) (fun _ => Some [zhongzheng])
        (Some [("臺北市中正區", "離島地區")]) (fun _ => false) (fun _ => false)
        LifecycleFacts.digits_float.

Definition p_empty : ChoroplethParams :=
  Choropleth.mkChoroplethParams [] "value" (Some "county") "GnBu" "{x:,.0f}" true.

Lemma subsidy_json_read_first_witness :
  read_town_type env_no_json = None /\
  plot_boundary_with_subsidy env_no_json ValidationFacts.w0 = (ValidationFacts.w0, Err OSError).
Proof.
  assert (H : read_town_type env_no_json = None) by reflexivity.
  split; [exact H | exact (subsidy_json_read_first env_no_json ValidationFacts.w0 H)].
Defined.

Lemma boundary_draws_each_panel_witness :
  let r := plot_boundary ChoroplethFacts.env2 ValidationFacts.w0 in
  r = (fst r, Ok (0%nat, ValidationFacts.cv_base)) /\
  0%nat = next_fig ValidationFacts.w0 /\
  log (fst r) = log ValidationFacts.w0 ++
    map (fun ia => (0%nat, BoundaryPlot (fst ia) (county_at ChoroplethFacts.env2 (snd ia))
                             "black" 0.8)) area_list /\
  Forall (county_read_ok ChoroplethFacts.env2) area_list.
Proof.
  intros r.
  assert (Hr : r = (fst r, Ok (0%nat, ValidationFacts.cv_base))) by (vm_compute; reflexivity).
  split; [exact Hr |].
  exact (boundary_draws_each_panel ChoroplethFacts.env2 ValidationFacts.w0 (fst r) 0
           ValidationFacts.cv_base Hr).
Defined.

Definition dot_ok : DotParams := Dot.mkDotParams [120.96; 118.3] [23.7; 24.4] 10 "red" 0.5.
(** A one-element [size] and [color], which matplotlib broadcasts. *)
Definition bubble_ok : BubbleParams :=
  Bubble.make [120.96; 118.3] [23.7; 24.4] (Some [40]) (Some ["blue"]) 0.5 1.

Lemma scatter_on_each_panel_witness :
  let rd := plot_dot LifecycleFacts.quiet_env dot_ok ValidationFacts.w0 in
  let rb := plot_bubble LifecycleFacts.quiet_env bubble_ok ValidationFacts.w0 in
  rd = (fst rd, Ok (0%nat, ValidationFacts.cv_base)) /\
  rb = (fst rb, Ok (0%nat, ValidationFacts.cv_base)) /\
  (exists wb, plot_boundary LifecycleFacts.quiet_env ValidationFacts.w0 =
                (wb, Ok (0%nat, ValidationFacts.cv_base)) /\
     log (fst rd) = log wb ++
       map (fun ia => (0%nat, Scatter (fst ia) (Dot.x dot_ok) (Dot.y dot_ok)
                        (SScalar (Dot.size dot_ok)) (CSingle (Dot.color dot_ok))
                        (Dot.alpha dot_ok) false)) area_list) /\
  (exists wb, plot_boundary LifecycleFacts.quiet_env ValidationFacts.w0 =
                (wb, Ok (0%nat, ValidationFacts.cv_base)) /\
     log (fst rb) = log wb ++
       map (fun ia => (0%nat, Scatter (fst ia) (Bubble.x bubble_ok) (Bubble.y bubble_ok)
                        (SArray (Bubble.size bubble_ok)) (CList (Bubble.color bubble_ok))
                        (Bubble.alpha bubble_ok) true)) area_list).
Proof.
  intros rd rb.
  assert (Hd : rd = (fst rd, Ok (0%nat, ValidationFacts.cv_base))) by (vm_compute; reflexivity).
  assert (Hb : rb = (fst rb, Ok (0%nat, ValidationFacts.cv_base))) by (vm_compute; reflexivity).
  split; [exact Hd | split; [exact Hb | split]].
  - exact (proj1 (scatter_on_each_panel LifecycleFacts.quiet_env ValidationFacts.w0 (fst rd) 0
                    ValidationFacts.cv_base) dot_ok Hd).
  - exact (proj2 (scatter_on_each_panel LifecycleFacts.quiet_env ValidationFacts.w0 (fst rb) 0
                    ValidationFacts.cv_base) bubble_ok Hb).
Defined.

Lemma subsidy_panels_then_legend_witness :
  let r := plot_boundary_with_subsidy env_sub ValidationFacts.w0 in
  r = (fst r, Ok (0%nat, ValidationFacts.cv_base)) /\
  exists town_type,
    read_town_type env_sub = Some town_type /\ 0%nat = next_fig ValidationFacts.w0 /\
    log (fst r) = log ValidationFacts.w0 ++
      flat_map (fun ia =>
        [(0%nat, BoundaryPlot (fst ia) (county_at env_sub (snd ia)) "black" 0.8);
         (0%nat, BoundaryPlot (fst ia) (town_at env_sub (snd ia)) "gray" 0.5);
         (0%nat, FillColors (fst ia) (town_at env_sub (snd ia))
                   (map (town_color town_type) (town_at env_sub (snd ia))))]) area_list ++
      [(0%nat, Legend subsidy_legend)].
Proof.
  intros r.
  assert (Hr : r = (fst r, Ok (0%nat, ValidationFacts.cv_base))) by (vm_compute; reflexivity).
  split; [exact Hr |].
  exact (subsidy_panels_then_legend env_sub ValidationFacts.w0 (fst r) 0
           ValidationFacts.cv_base Hr).
Defined.

Definition hist2d_3_2 : Hist2DParams :=
  Hist2D.mkHist2DParams [120.96; 121; 121.5] [23.7; 24] 100 "GnBu" 0.5 1.

Lemma hist2d_mismatch_fails_after_boundary_witness :
  let r := plot_boundary LifecycleFacts.quiet_env ValidationFacts.w0 in
  r = (fst r, Ok (0%nat, ValidationFacts.cv_base)) /\
  length (Hist2D.x hist2d_3_2) <> length (Hist2D.y hist2d_3_2) /\
  plot_hist2d LifecycleFacts.quiet_env hist2d_3_2 ValidationFacts.w0 =
    (fst r, Err (ValueError "x and y must have the same length.")).
Proof.
  intros r.
  assert (Hr : r = (fst r, Ok (0%nat, ValidationFacts.cv_base))) by (vm_compute; reflexivity).
  assert (Hl : length (Hist2D.x hist2d_3_2) <> length (Hist2D.y hist2d_3_2)) by discriminate.
  split; [exact Hr | split; [exact Hl |]].
  exact (hist2d_mismatch_fails_after_boundary LifecycleFacts.quiet_env ValidationFacts.w0
           (fst r) 0 ValidationFacts.cv_base hist2d_3_2 Hr Hl).
Defined.



(** A "county" column of numbers (pandas reads the codes as [int64]). *)
Definition p_county_code : ChoroplethParams :=
  Choropleth.mkChoroplethParams [[("county", VNum 63); ("value", VNum 10)]]
    "value" (Some "county") "GnBu" "{x:,.0f}" true.

Lemma choropleth_numeric_key_fails_witness :
  find (fun n => negb (has_column (Choropleth.data p_county_code) n))
    (choropleth_right_on p_county_code) = None /\
  find (numeric_column (Choropleth.data p_county_code)) (choropleth_right_on p_county_code)
    = Some "county" /\
  snd (plot_choropleth ChoroplethFacts.env2 p_county_code ValidationFacts.w0) =
    Err (ValueError "You are trying to merge on object and numeric columns").
Proof.
  assert (Hr : find (fun n => negb (has_column (Choropleth.data p_county_code) n))
                 (choropleth_right_on p_county_code) = None) by reflexivity.
  assert (Hk : find (numeric_column (Choropleth.data p_county_code))
                 (choropleth_right_on p_county_code) = Some "county") by reflexivity.
  split; [exact Hr | split; [exact Hk |]].
  exact (choropleth_numeric_key_fails ChoroplethFacts.env2 p_county_code ValidationFacts.w0
           "county" ChoroplethFacts.taipei [ChoroplethFacts.new_taipei] Hr Hk eq_refl).
Defined.

Lemma choropleth_missing_key_fails_witness :
  find (fun n => negb (has_column (Choropleth.data p_empty) n)) (choropleth_right_on p_empty)
    = Some "county" /\
  (if is_town p_empty then read_town ChoroplethFacts.env2 else read_county ChoroplethFacts.env2)
    (region_bbox "taiwan") = Some [ChoroplethFacts.taipei; ChoroplethFacts.new_taipei] /\
  snd (plot_choropleth ChoroplethFacts.env2 p_empty ValidationFacts.w0) = Err (KeyError "county").
Proof.
  assert (H1 : find (fun n => negb (has_column (Choropleth.data p_empty) n))
                 (choropleth_right_on p_empty) = Some "county") by reflexivity.
  assert (H2 : (if is_town p_empty then read_town ChoroplethFacts.env2
                else read_county ChoroplethFacts.env2) (region_bbox "taiwan")
               = Some [ChoroplethFacts.taipei; ChoroplethFacts.new_taipei]) by reflexivity.
  split; [exact H1 | split; [exact H2 |]].
  exact (choropleth_missing_key_fails ChoroplethFacts.env2 p_empty ValidationFacts.w0 "county"
           _ H1 H2).
Defined.

End RendererFacts.

Module GeometryFacts.

Import Layout.
Open Scope Q_scope.

(** The level of the region a panel shows. *)
Definition panel_level (p : Axes) : option nat :=
  match ax_label p with
  | Some l => option_map area_level (dict_get l AREA_RANGE)
  | None => None
  end.

(** A rectangle of positive size inside the main axes' [(0, 0, 1, 1)]. *)
Definition inside_unit (r : Rect) : Prop :=
  0 <= rx r /\ 0 <= ry r /\ 0 < rw r /\ 0 < rh r /\ rx r + rw r <= 1 /\ ry r + rh r <= 1.

Lemma nth_error_In_indexed {A} (l : list A) s i x :
  nth_error l i = Some x -> In (s + i, x)%nat (combine (seq s (length l)) l).
Proof.
  revert s i. induction l as [| y l IH]; intros s i H; destruct i as [| i]; simpl in *;
    try discriminate H.
  - injection H as ->. left. f_equal. lia.
  - right. rewrite Nat.add_succ_r, <- Nat.add_succ_l. apply IH. exact H.
Qed.

Ltac qcheck := vm_compute; first [reflexivity | intros Hq; discriminate Hq].

Ltac enum H k :=
  vm_compute in H;
  repeat (destruct H as [H | H]; [injection H as <- <-; k | ]); contradiction.

Ltac enum1 H k :=
  vm_compute in H;
  repeat (destruct H as [H | H]; [subst; k | ]); contradiction.

(** X16: the panels [GeoPlot.base] lays out all have positive size and
    lie inside the main axes; panels of the same level (1 or 2) are
    stacked bottom to top in the order of [AREA_RANGE] and do not overlap
    vertically; and each sub-group panel (level 2, key "<group>-...")
    lies vertically within the panel of its group. *)
Theorem base_panel_geometry :
  exists cv,
    base = Some cv /\
    Forall (fun p => inside_unit (ax_rect p)) (child_axes cv) /\
    (forall i j p q n, (i < j)%nat ->
       nth_error (child_axes cv) i = Some p -> nth_error (child_axes cv) j = Some q ->
       panel_level p = Some n -> panel_level q = Some n -> (0 < n)%nat ->
       ry (ax_rect p) + rh (ax_rect p) < ry (ax_rect q)) /\
    (forall p q kp kq, In p (child_axes cv) -> In q (child_axes cv) ->
       ax_label p = Some kp -> ax_label q = Some kq ->
       panel_level p = Some 1%nat -> panel_level q = Some 2%nat ->
       String.prefix (kp ++ "-") kq = true ->
       ry (ax_rect p) <= ry (ax_rect q) /\
       ry (ax_rect q) + rh (ax_rect q) <= ry (ax_rect p) + rh (ax_rect p)).
Proof.
  eexists. split; [vm_compute; reflexivity |].
  split; [| split].
  - repeat constructor; unfold inside_unit; repeat split; qcheck.
  - intros i j p q n Hij Hp Hq Hlp Hlq Hn.
    apply (nth_error_In_indexed _ 0) in Hp, Hq. simpl in Hp, Hq.
    enum Hp ltac:(enum Hq ltac:(vm_compute in Hlp, Hlq;
      first [lia | congruence | (injection Hlp as <-; lia) | qcheck])).
  - intros p q kp kq Hp Hq Hkp Hkq Hlp Hlq Hpre.
    enum1 Hp ltac:(enum1 Hq ltac:(vm_compute in Hkp, Hkq, Hlp, Hlq;
      first [discriminate Hlp | discriminate Hlq |
             (injection Hkp as <-; injection Hkq as <-;
              first [discriminate Hpre | split; qcheck])])).
Qed.

End GeometryFacts.

Module BubbleFacts.

Import Graph.

(** X17: an omitted [size] or [color] of [BubbleParams]
    ([__post_init__]'s lists of [1]s and of "red"s, as long as [x]) passes
    matplotlib's [scatter] checks exactly as the scalar size 1 and the
    single colour "red" would: it never causes an error of its own. *)
Theorem bubble_defaults_fit_x (x y : list Q) (size : option (list Q))
    (color : option (list string)) (alpha : Q) (cmin : nat) :
  let p := Bubble.make x y size color alpha cmin in
  scatter_error (Bubble.x p) (Bubble.y p) (SArray (Bubble.size p)) (CList (Bubble.color p)) =
  scatter_error x y (match size with Some s => SArray s | None => SScalar 1 end)
    (match color with Some c => CList c | None => CSingle "red" end).
Proof.
  intros p. unfold p, Bubble.make. cbn [Bubble.x Bubble.y Bubble.size Bubble.color].
  unfold scatter_error.
  destruct size, color; rewrite ?repeat_length, ?Nat.eqb_refl, ?orb_true_r; reflexivity.
Qed.

End BubbleFacts.
